(** * uroboros: socket-table decoders, inode index and target search

    A shallow embedding of [host/network.go] (the decoders of the kernel
    socket tables under [/proc/net], the table scanner and the inode index)
    and of [searchTarget] of the command's [main.go], followed by the
    properties that the specification states about them.

    Conventions of the embedding:
    - a Go [string] is a [string] (a sequence of bytes);
    - a Go [uint] is an [N], a Go [int] is a [Z]; no count in this code
      comes near the 64-bit bounds, so no wrap-around is written;
    - a [net.IP] (a byte slice) is a [list N], [nil] being [[]];
    - a Go map is a [gmap]; indexing a map at an absent key yields the zero
      value of the element type;
    - a Go function returning [(v, err)] returns a pair whose second component
      is [None] for a [nil] error;
    - a panic is an outcome of its own, next to a normal return. *)

From Stdlib Require Import ZArith NArith Ascii String List Sorted Permutation.
From stdpp Require Import base decidable option list gmap strings pretty sorting.

Local Open Scope Z_scope.

(** ** Go's library functions used by the code *)

Module strings.

(** [asciiSpace] of Go's [strings] package: tab, line feed, vertical tab,
    form feed, carriage return and space. *)
Definition isSpace (c : ascii) : bool :=
  let b := N_of_ascii c in
  ((9 <=? b) && (b <=? 13) || (b =? 32))%N.

(** [strings.Fields] on a string of ASCII bytes: the maximal runs of
    non-space bytes, in order.  [cur] is the field being read, empty when
    no field has started (Go's [fieldStart < 0]).  Bytes above 127 are
    taken as non-space: the Unicode spaces outside ASCII are not modelled. *)
Fixpoint FieldsFrom (cur s : string) : list string :=
  match s with
  | EmptyString => if decide (cur = "") then [] else [cur]
  | String c s' =>
      if isSpace c
      then (if decide (cur = "") then FieldsFrom "" s'
            else cur :: FieldsFrom "" s')
      else FieldsFrom (cur +:+ String c "") s'
  end.

Definition Fields (s : string) : list string := FieldsFrom "" s.

(** [strings.Split(s, sep)] for a separator of one byte: the pieces of [s]
    between the occurrences of [sep]; one more piece than occurrences. *)
Fixpoint SplitFrom (sep : ascii) (cur s : string) : list string :=
  match s with
  | EmptyString => [cur]
  | String c s' =>
      if Ascii.eqb c sep then cur :: SplitFrom sep "" s'
      else SplitFrom sep (cur +:+ String c "") s'
  end.

Definition Split (s : string) (sep : ascii) : list string :=
  SplitFrom sep "" s.

(** [strings.IndexByte(s, c) >= 0]. *)
Fixpoint ContainsByte (s : string) (c : ascii) : bool :=
  match s with
  | EmptyString => false
  | String d s' => Ascii.eqb d c || ContainsByte s' c
  end.

(** [strings.Index(s, substr)]: the index of the first occurrence of
    [substr] in [s], or [-1]. *)
Definition Index (s substr : string) : Z :=
  match String.index 0 substr s with
  | Some i => Z.of_nat i
  | None => -1
  end.

(** [strings.Join(elems, sep)]. *)
Fixpoint Join (elems : list string) (sep : string) : string :=
  match elems with
  | [] => ""
  | [e] => e
  | e :: rest => e +:+ sep +:+ Join rest sep
  end.

(** [strings.Trim(s, cutset)], by the two passes of [TrimLeft] and
    [TrimRight]. *)
Fixpoint TrimLeft (cut : ascii → bool) (s : string) : string :=
  match s with
  | EmptyString => ""
  | String c s' => if cut c then TrimLeft cut s' else s
  end.

Fixpoint TrimRight (cut : ascii → bool) (s : string) : string :=
  match s with
  | EmptyString => ""
  | String c s' =>
      match TrimRight cut s' with
      | EmptyString => if cut c then "" else String c ""
      | t => String c t
      end
  end.

Definition Trim (cut : ascii → bool) (s : string) : string :=
  TrimRight cut (TrimLeft cut s).

End strings.

Module str.
(** [str.Trim] of islazy: [strings.Trim(s, "\r\n\t ")]. *)
Definition cutset (c : ascii) : bool :=
  match c with
  | "013" | "010" | "009" | " " => true
  | _ => false
  end%char.

Definition Trim (s : string) : string := strings.Trim cutset s.
End str.

(** The verb [%d] of [fmt], for the two integer types printed by the code. *)
Definition fmt_d (n : Z) : string := pretty n.
Definition fmt_len (n : nat) : string := pretty n.

(** ** Errors, panics and outcomes *)

(** An [error] value: the [*PathError] of a failed [os.Open], or the value
    built by [fmt.Errorf], which carries its message. *)
Inductive error : Type :=
| PathError (op path cause : string)
| Errorf (msg : string).

(** What a panic carries: the error given to [panic(err)], the run-time
    error of an index out of range, or a panic raised inside one of the
    conversion helpers of the package. *)
Inductive panic : Type :=
| PanicError (e : error)
| IndexOutOfRange (i len : nat)
| ConversionPanic (helper arg : string).

Inductive outcome (A : Type) : Type :=
| Returns (a : A)
| Panics (p : panic).
Arguments Returns {A} a.
Arguments Panics {A} p.

(** Sequencing: a panic ends the evaluation.  The notation [x ← m; k] is
    stdpp's, for this bind. *)
#[global] Instance outcome_bind : MBind outcome := λ A B k m,
  match m with
  | Returns a => k a
  | Panics p => Panics p
  end.

(** The index expression [l[i]] on a slice, with its bounds check. *)
Definition index {A : Type} (l : list A) (i : nat) : outcome A :=
  match l !! i with
  | Some x => Returns x
  | None => Panics (IndexOutOfRange i (length l))
  end.

(** ** The data model of [host/network.go] *)

Definition TCP_ESTABLISHED : N := 0 + 1.
Definition TCP_SYN_SENT : N := 1 + 1.
Definition TCP_SYN_RECV : N := 2 + 1.
Definition TCP_FIN_WAIT1 : N := 3 + 1.
Definition TCP_FIN_WAIT2 : N := 4 + 1.
Definition TCP_TIME_WAIT : N := 5 + 1.
Definition TCP_CLOSE : N := 6 + 1.
Definition TCP_CLOSE_WAIT : N := 7 + 1.
Definition TCP_LAST_ACK : N := 8 + 1.
Definition TCP_LISTEN : N := 9 + 1.
Definition TCP_CLOSING : N := 10 + 1.
Definition TCP_NEW_SYN_RECV : N := 11 + 1.

Definition sockStates : gmap N string :=
  list_to_map
    [ (TCP_ESTABLISHED, "ESTABLISHED");
      (TCP_SYN_SENT, "SYN_SENT");
      (TCP_SYN_RECV, "SYN_RECV");
      (TCP_FIN_WAIT1, "FIN_WAIT1");
      (TCP_FIN_WAIT2, "FIN_WAIT2");
      (TCP_TIME_WAIT, "TIME_WAIT");
      (TCP_CLOSE, "CLOSE");
      (TCP_CLOSE_WAIT, "CLOSE_WAIT");
      (TCP_LAST_ACK, "LAST_ACK");
      (TCP_LISTEN, "LISTENING");
      (TCP_CLOSING, "CLOSING");
      (TCP_NEW_SYN_RECV, "NEW_SYN_RECV") ].

Definition sockTypes : gmap N string :=
  list_to_map [ (1%N, "SOCK_STREAM"); (2%N, "SOCK_DGRAM"); (5%N, "SOCK_SEQPACKET") ].

(** Indexing a [map[uint]string]: the empty string at an absent key. *)
Definition label (m : gmap N string) (k : N) : string := default "" (m !! k).

Definition IP : Type := list N.

Record NetworkEntry : Type := {
  Proto : string;
  Type_ : N;
  TypeString : string;
  Groups : string;
  Path : string;
  State : N;
  StateString : string;
  SrcIP : IP;
  SrcPort : N;
  DstIP : IP;
  DstPort : N;
  UserId : Z;
  INode : Z
}.

(** The zero value of the struct, which a named result holds until it is
    assigned. *)
Definition zeroEntry : NetworkEntry :=
  {| Proto := ""; Type_ := 0; TypeString := ""; Groups := ""; Path := "";
     State := 0; StateString := ""; SrcIP := []; SrcPort := 0; DstIP := [];
     DstPort := 0; UserId := 0; INode := 0 |}.

Definition protocols : list string :=
  ["tcp"; "tcp6"; "udp"; "udp6"; "unix"; "netlink"].

(** The declarations of package [host] that [network.go] uses and that live
    in other files of the package: the root of the proc filesystem and the
    three conversion helpers.  A helper that panics on its argument is
    [None] there. *)
Class HostEnv : Type := {
  ProcFS : string;
  hexToInt : string → option N;
  hexToIP : string → option IP;
  decToInt : string → option Z
}.

(** A call of a helper, a [None] becoming the panic it stands for. *)
Definition call {A : Type} (name : string) (f : string → option A) (arg : string)
  : outcome A :=
  match f arg with
  | Some v => Returns v
  | None => Panics (ConversionPanic name arg)
  end.

(** The message of the three decoders:
    ["could not parse netstat line from %s (got %d fields): %s"]. *)
Definition parseErrorf (filename : string) (n : nat) (line : string) : error :=
  Errorf ("could not parse netstat line from " +:+ filename +:+ " (got "
          +:+ fmt_len n +:+ " fields): " +:+ line).

(** ** The decoders *)

Section Decoders.
Context `{HostEnv}.

(** [parseIP]: a line of [/proc/net/tcp], [tcp6], [udp] or [udp6]. *)
Definition parseIP (filename line protocol : string)
  : outcome (NetworkEntry * option error) :=
  let fields := strings.Fields line in
  if decide (length fields < 10)%nat then
    Returns (zeroEntry, Some (parseErrorf filename (length fields) line))
  else
    f1 ← index fields 1;
    let local := strings.Split f1 ":" in
    f2 ← index fields 2;
    let remote := strings.Split f2 ":" in
    f3 ← index fields 3;
    sockState ← call "hexToInt" hexToInt f3;
    l0 ← index local 0;
    srcIP ← call "hexToIP" hexToIP l0;
    l1 ← index local 1;
    srcPort ← call "hexToInt" hexToInt l1;
    r0 ← index remote 0;
    dstIP ← call "hexToIP" hexToIP r0;
    r1 ← index remote 1;
    dstPort ← call "hexToInt" hexToInt r1;
    f7 ← index fields 7;
    userId ← call "decToInt" decToInt f7;
    f9 ← index fields 9;
    inode ← call "decToInt" decToInt f9;
    Returns
      ({| Proto := protocol; Type_ := 0; TypeString := ""; Groups := "";
          Path := ""; State := sockState;
          StateString := label sockStates sockState;
          SrcIP := srcIP; SrcPort := srcPort;
          DstIP := dstIP; DstPort := dstPort;
          UserId := userId; INode := inode |}, None).

(** [parseUnix]: a line of [/proc/net/unix]. *)
Definition parseUnix (filename line protocol : string)
  : outcome (NetworkEntry * option error) :=
  let fields := strings.Fields line in
  let num := length fields in
  if decide (num < 7)%nat then
    Returns (zeroEntry, Some (parseErrorf filename 7 line))
  else
    f4 ← index fields 4;
    sockType ← call "hexToInt" hexToInt f4;
    f5 ← index fields 5;
    sockState ← call "hexToInt" hexToInt f5;
    path ← (if decide (7 < num)%nat return outcome string
            then index fields 7 else Returns "");
    f6 ← index fields 6;
    inode ← call "decToInt" decToInt f6;
    Returns
      ({| Proto := protocol; Type_ := sockType;
          TypeString := label sockTypes sockType; Groups := "";
          Path := path; State := sockState;
          StateString := label sockStates sockState;
          SrcIP := []; SrcPort := 0; DstIP := []; DstPort := 0;
          UserId := 0; INode := inode |}, None).

(** [parseNetlink]: a line of [/proc/net/netlink]. *)
Definition parseNetlink (filename line protocol : string)
  : outcome (NetworkEntry * option error) :=
  let fields := strings.Fields line in
  let num := length fields in
  if decide (num < 10)%nat then
    Returns (zeroEntry, Some (parseErrorf filename 7 line))
  else
    f3 ← index fields 3;
    f9 ← index fields 9;
    inode ← call "decToInt" decToInt f9;
    Returns
      ({| Proto := protocol; Type_ := 0; TypeString := ""; Groups := f3;
          Path := ""; State := 0; StateString := "";
          SrcIP := []; SrcPort := 0; DstIP := []; DstPort := 0;
          UserId := 0; INode := inode |}, None).

End Decoders.

(** ** The table scanner and the inode index *)

(** What [os.Open] and the [bufio.Scanner] see of a file: the error of the
    open, or the lines that [scanner.Scan] yields one after the other.  An
    error that ends the scanning early is not looked at by the code, so the
    file is the lines yielded before it. *)
Inductive file : Type :=
| OpenError (err : error)
| Lines (ls : list string).

Definition FS : Type := string → file.

Abbreviation NetworkINodes := (gmap Z NetworkEntry).

Section Scanner.
Context `{HostEnv}.

(** The dispatch on the protocol name in the loop of
    [parseNetworkForProtocol]. *)
Definition parseLine (filename line proto : string)
  : outcome (NetworkEntry * option error) :=
  if decide (proto = "unix") then parseUnix filename line proto
  else if decide (proto = "netlink") then parseNetlink filename line proto
  else parseIP filename line proto.

(** A line of the file that decodes, and the entry it decodes to. *)
Definition decodesTo (filename proto text : string) (e : NetworkEntry) : Prop :=
  parseLine filename (str.Trim text) proto = Returns (e, None).

(** The loop [for lineno := 0; scanner.Scan(); lineno++] over the lines
    that remain, [entries] being the slice built so far. *)
Fixpoint scanLoop (filename proto : string) (lineno : nat)
    (ls : list string) (entries : list NetworkEntry)
  : outcome (list NetworkEntry) :=
  match ls with
  | [] => Returns entries
  | text :: rest =>
      if decide (lineno = 0)%nat then
        scanLoop filename proto (S lineno) rest entries
      else
        let line := str.Trim text in
        r ← parseLine filename line proto;
        match r with
        | (_, Some err) => Panics (PanicError err)
        | (entry, None) =>
            scanLoop filename proto (S lineno) rest (entries ++ [entry])
        end
  end.

(** [parseNetworkForProtocol]; the [nil] slice of the error return is the
    empty list. *)
Definition parseNetworkForProtocol (fs : FS) (proto : string)
  : outcome (list NetworkEntry * option error) :=
  let filename := ProcFS +:+ "/net/" +:+ proto in
  match fs filename with
  | OpenError err => Returns ([], Some err)
  | Lines ls =>
      entries ← scanLoop filename proto 0 ls [];
      Returns (entries, None)
  end.

(** The inner loop of [parseNetworkInodes]:
    [byInode[entry.INode] = entry] for each entry in order. *)
Definition addEntries (byInode : NetworkINodes) (entries : list NetworkEntry)
  : NetworkINodes :=
  foldl (λ m entry, <[INode entry := entry]> m) byInode entries.

(** The outer loop of [parseNetworkInodes] over the protocols that remain.
    The [nil] map of the error return is [None]. *)
Fixpoint indexLoop (fs : FS) (protos : list string) (byInode : NetworkINodes)
  : outcome (option NetworkINodes * option error) :=
  match protos with
  | [] => Returns (Some byInode, None)
  | proto :: rest =>
      r ← parseNetworkForProtocol fs proto;
      match r with
      | (_, Some err) => Returns (None, Some err)
      | (entries, None) => indexLoop fs rest (addEntries byInode entries)
      end
  end.

Definition parseNetworkInodes (fs : FS)
  : outcome (option NetworkINodes * option error) :=
  indexLoop fs protocols ∅.

End Scanner.

(** ** The conversion helpers, from the specification *)

Module SpecHelpers.

(** The value of a hexadecimal digit, of either case, from its byte. *)
Definition hexDigit (c : ascii) : option N :=
  let b := N_of_ascii c in
  if ((48 <=? b) && (b <=? 57))%N then Some (b - 48)%N
  else if ((97 <=? b) && (b <=? 102))%N then Some (b - 97 + 10)%N
  else if ((65 <=? b) && (b <=? 70))%N then Some (b - 65 + 10)%N
  else None.

Fixpoint hexFrom (acc : N) (s : string) : option N :=
  match s with
  | EmptyString => Some acc
  | String c s' => d ← hexDigit c; hexFrom (16 * acc + d)%N s'
  end.

(** Modelled from the spec: [hexToInt] is declared in a file of package
    [host] that is not among the sources.  The specification has a column
    of hexadecimal digits converted to an integer, most significant digit
    first, and a failed conversion fatal for the line: the panic is [None]. *)
Definition hexToInt (h : string) : option N :=
  if decide (h = "") then None else hexFrom 0 h.

Fixpoint hexBytes (s : string) : option (list N) :=
  match s with
  | EmptyString => Some []
  | String _ EmptyString => None
  | String c1 (String c2 s') =>
      hi ← hexDigit c1; lo ← hexDigit c2; bs ← hexBytes s';
      Some ((16 * hi + lo)%N :: bs)
  end.

(** Modelled from the spec: [hexToIP] is declared in a file of package
    [host] that is not among the sources.  The specification has the
    address as reversed-byte hexadecimal: the bytes that the digit pairs
    write, in the reverse of their written order. *)
Definition hexToIP (h : string) : option IP := reverse <$> hexBytes h.

(** The value of a decimal digit, from its byte. *)
Definition decDigit (c : ascii) : option Z :=
  let b := N_of_ascii c in
  if ((48 <=? b) && (b <=? 57))%N then Some (Z.of_N b - 48) else None.

Fixpoint decFrom (acc : Z) (s : string) : option Z :=
  match s with
  | EmptyString => Some acc
  | String c s' => d ← decDigit c; decFrom (10 * acc + d) s'
  end.

(** Modelled from the spec: [decToInt] is declared in a file of package
    [host] that is not among the sources.  The specification has the inode
    and the user id as decimal columns, and a failed conversion fatal. *)
Definition decToInt (s : string) : option Z :=
  if decide (s = "") then None else decFrom 0 s.

(** The environment with these helpers and the default root. *)
Definition env : HostEnv :=
  Build_HostEnv "/proc" hexToInt hexToIP decToInt.

End SpecHelpers.

(** ** [searchTarget] of the command *)

(** What the code reads of a [procfs.Proc]: its [PID], and what [Comm()] and
    [CmdLine()] return for it, their errors dropped as the code drops them
    (an unreadable [comm] is the empty string). *)
Record Proc : Type := {
  PID : Z;
  Comm : string;
  CmdLine : list string
}.

Definition zeroProc : Proc := {| PID := 0; Comm := ""; CmdLine := [] |}.

(** How [searchTarget] ends when it does not panic: by returning to [main],
    or by [os.Exit(code)]. *)
Inductive ending : Type :=
| Return
| Exit (code : Z).

(** The state that [searchTarget] leaves: how it ended, the value of
    [host.TargetPID] and what was printed on the standard output. *)
Record SearchState : Type := {
  ended : ending;
  TargetPID : Z;
  stdout : list string
}.

(** The loop over [procs] that fills [matches] and [matchPIDs]. *)
Definition collectMatches (targetName : string) (procs : list Proc)
  : gmap Z Proc * list Z :=
  foldl
    (λ (acc : gmap Z Proc * list Z) proc,
       let comm := Comm proc in
       if decide (comm ≠ "" ∧ strings.Index comm targetName ≠ -1)
       then (<[PID proc := proc]> acc.1, acc.2 ++ [PID proc])
       else acc)
    (∅, []) procs.

(** [sort.Ints]. *)
Definition sortInts (l : list Z) : list Z := merge_sort Z.le l.

(** The line printed for a match:
    ["[%d] (%s) %s\n"] of the pid, [Comm()] and the joined [CmdLine()]. *)
Definition procLine (pid : Z) (proc : Proc) : string :=
  "[" +:+ fmt_d pid +:+ "] (" +:+ Comm proc +:+ ") "
  +:+ strings.Join (CmdLine proc) " " +:+ String "010" "".

(** The body of the loop over the sorted pids: [proc := matches[pid]], the
    zero [Proc] at an absent key, and its line. *)
Definition matchLine (matches : gmap Z Proc) (pid : Z) : string :=
  procLine pid (default zeroProc (matches !! pid)).

(** The tail of [searchTarget]: the own pid when no target is set. *)
Definition defaultTarget (getpid targetPID : Z) (out : list string)
  : SearchState :=
  {| ended := Return;
     TargetPID := if decide (targetPID ≤ 0) then getpid else targetPID;
     stdout := out |}.

(** [searchTarget], given the flag [targetName], the result of
    [procfs.AllProcs()], the value of [os.Getpid()] and [host.TargetPID]
    on entry. *)
Definition searchTarget (targetName : string) (allProcs : error + list Proc)
    (getpid targetPID : Z) : outcome SearchState :=
  if decide (targetName ≠ "") then
    match allProcs with
    | inl err => Panics (PanicError err)
    | inr procs =>
        let '(matches, matchPIDs) := collectMatches targetName procs in
        let num := size matches in
        if decide (num = 0)%nat then
          Returns {| ended := Exit 1; TargetPID := targetPID;
                     stdout := ["no matches for '" +:+ targetName +:+ "'"
                                +:+ String "010" ""] |}
        else if decide (1 < num)%nat then
          Returns {| ended := Exit 0; TargetPID := targetPID;
                     stdout :=
                       ("multiple matches for '" +:+ targetName +:+ "':"
                        +:+ String "010" "")
                       :: (matchLine matches <$> sortInts matchPIDs) |}
        else
          match map_to_list matches with
          | (pid, _) :: _ =>
              Returns {| ended := Return; TargetPID := pid; stdout := [] |}
          | [] => Returns (defaultTarget getpid targetPID [])
          end
    end
  else Returns (defaultTarget getpid targetPID []).

(** ** Notions used to state the properties *)


(** The least number of fields that the decoder of a protocol accepts, and
    the count that its message gives for a line of [n] fields. *)
Definition minFields (proto : string) : nat :=
  if decide (proto = "unix") then 7%nat else 10%nat.


(** The entries of a list that carry a given inode, in order. *)
Definition withINode (i : Z) (entries : list NetworkEntry) : list NetworkEntry :=
  filter (λ e, INode e = i) entries.

(** The processes that the loop of [searchTarget] takes as matches, and the
    map that it builds of them. *)
Definition matching (targetName : string) (procs : list Proc) : list Proc :=
  filter (λ proc, Comm proc ≠ "" ∧ strings.Index (Comm proc) targetName ≠ -1)
    procs.

Definition addProcs (m : gmap Z Proc) (procs : list Proc) : gmap Z Proc :=
  foldl (λ m proc, <[PID proc := proc]> m) m procs.

(** ** Sample tables and processes *)

(** The files of a root: the tables listed, every other file absent. *)
Fixpoint tableFiles (files : list (string * list string)) : FS := λ n,
  match files with
  | [] => OpenError (PathError "open" n "no such file or directory")
  | (name, ls) :: rest =>
      if decide (n = name) then Lines ls else tableFiles rest n
  end.

Definition ipHeader : string :=
  "  sl  local_address rem_address   st tx_queue rx_queue tr tm->when retrnsmt   uid  timeout inode".
Definition unixHeader : string :=
  "Num       RefCount Protocol Flags    Type St Inode Path".
Definition netlinkHeader : string :=
  "sk               Eth Pid        Groups   Rmem     Wmem     Dump     Locks     Drops     Inode".

(** Six tables; the unix socket has the inode of the tcp socket. *)
Definition sampleFS : FS :=
  tableFiles
    [ ("/proc/net/tcp",
       [ipHeader;
        "   0: 0100007F:13AD 00000000:0000 0A 00000000:00000000 00:00000000 00000000  1000        0 18083222"]);
      ("/proc/net/tcp6", [ipHeader]);
      ("/proc/net/udp",
       [ipHeader;
        "  52: 3500007F:0035 00000000:0000 07 00000000:00000000 00:00000000 00000000   101        0 21074"]);
      ("/proc/net/udp6", [ipHeader]);
      ("/proc/net/unix",
       [unixHeader;
        "0000000000000000: 00000002 00000000 00010000 0001 01 18083222 /run/user/1000/gnupg/S.dirmngr"]);
      ("/proc/net/netlink",
       [netlinkHeader;
        "0000000000000000 0   2014       00000110 0        0        0        2         0         27854"]) ].

(** The same without the udp tables and what follows them. *)
Definition noUdpFS : FS :=
  tableFiles
    [ ("/proc/net/tcp",
       [ipHeader;
        "   0: 0100007F:13AD 00000000:0000 0A 00000000:00000000 00:00000000 00000000  1000        0 18083222"]);
      ("/proc/net/tcp6", [ipHeader]) ].

(** Two sockets in TIME_WAIT, which the kernel lists with inode 0, and one
    udp socket. *)
Definition timeWaitFS : FS :=
  tableFiles
    [ ("/proc/net/tcp",
       [ipHeader;
        "   1: 0100007F:13AD 0100007F:D2A4 06 00000000:00000000 03:00000A5B 00000000     0        0 0 3 0000000000000000";
        "   2: 0100007F:13AD 0100007F:D2A6 06 00000000:00000000 03:00000A5C 00000000     0        0 0 3 0000000000000000"]);
      ("/proc/net/udp",
       [ipHeader;
        "  52: 3500007F:0035 00000000:0000 07 00000000:00000000 00:00000000 00000000   101        0 21074"]) ].


(** A process table. *)
Definition sampleProcs : list Proc :=
  [ {| PID := 30; Comm := "bash"; CmdLine := ["bash"; "-l"] |};
    {| PID := 4; Comm := "sshd"; CmdLine := ["/usr/sbin/sshd"; "-D"] |};
    {| PID := 5; Comm := "kworker/0:1"; CmdLine := [] |} ].

(** ** The rendering of an entry *)

(** The verb [%d] of [fmt] for a [uint]. *)
Definition fmt_u (n : N) : string := pretty n.

Section Rendering.
(** [net.IP.String] of Go's library, and what [InfoString] reads of the
    file system: for a path, the string of the mode that [os.Stat] finds, or
    nothing when [os.Stat] fails. *)
Variable ipString : IP → string.
Variable statMode : string → option string.

(** The format ["(%s) %s:%d"] of the protocol and the source. *)
Definition sourceForm (e : NetworkEntry) : string :=
  "(" +:+ Proto e +:+ ") " +:+ ipString (SrcIP e) +:+ ":" +:+ fmt_u (SrcPort e).

(** The format ["(%s) %s:%d <-> %s:%d"]. *)
Definition pairForm (e : NetworkEntry) : string :=
  sourceForm e +:+ " <-> " +:+ ipString (DstIP e) +:+ ":" +:+ fmt_u (DstPort e).

(** The method [String] of [NetworkEntry]. *)
Definition NetworkEntry_String (e : NetworkEntry) : string :=
  if decide (Proto e = "unix") then
    if decide (Path e = "") then
      "(" +:+ Proto e +:+ ") " +:+ TypeString e +:+ " inode=" +:+ fmt_d (INode e)
    else
      "(" +:+ Proto e +:+ ") " +:+ TypeString e +:+ " path='" +:+ Path e +:+ "'"
  else if decide (Proto e = "netlink") then
    "(" +:+ Proto e +:+ ") groups=" +:+ Groups e
  else if decide (Proto e = "udp") then
    if decide (ipString (DstIP e) = "0.0.0.0") then sourceForm e
    else pairForm e
  else if decide (State e = TCP_LISTEN) then sourceForm e
  else pairForm e.

(** The method [InfoString] of [NetworkEntry]. *)
Definition InfoString (e : NetworkEntry) : string :=
  if decide (Proto e = "unix") then
    if decide (Path e ≠ "") then
      match statMode (Path e) with
      | Some mode => mode
      | None => ""
      end
    else ""
  else StateString e.

End Rendering.

(** ** [main] of the command *)

(** The method [Error] of an [error]. *)
Definition Error_ (err : error) : string :=
  match err with
  | PathError op path cause => op +:+ " " +:+ path +:+ ": " +:+ cause
  | Errorf msg => msg
  end.

(** A [ui.Event], as far as [main] reads it: its [ID], and whether its
    [Payload] is a [ui.Resize] and of what size. *)
Inductive Payload : Type :=
| Resize (Width Height : Z)
| OtherPayload.

Record Event : Type := {
  ID : string;
  EventPayload : Payload
}.

(** What the [select] of the loop receives: a tick, or an event. *)
Inductive input : Type :=
| Tick
| UI (e : Event).

(** The calls of [main] into the rest of the program and into the
    libraries, in the order they are made.  The functions called live in
    other files: they are taken to return, and not to write [paused]; what
    else they do is not modelled. *)
Inductive action : Type :=
| Print (s : string)
| CreateFile (name : string)
| StartCPUProfile
| StopCPUProfile
| RecordNew
| RecordLoad (name : string)
| SetupUI (pid : Z)
| UpdateTabs
| UpdateUI
| CloseUI
| PollEvents
| NewTicker (d : Z)
| SetRect (x0 y0 x1 y1 : Z)
| FocusLeft
| FocusRight
| TabEvent (e : Event).

(** How [main] ends: by returning, by [os.Exit], by a panic, or not at all
    in the inputs given (the [select] waits for the next one). *)
Inductive crash : Type :=
| CrashPanic (p : panic)
| CrashTicker (d : Z)
| CrashAssertion (e : Event).

Inductive mainEnd : Type :=
| Returned
| Exited (code : Z)
| Crashed (c : crash)
| Waiting.

(** The flags, after [flag.Parse]. *)
Record Flags : Type := {
  flag_pid : Z;
  flag_search : string;
  flag_period : Z;
  flag_record : string;
  flag_replay : string;
  flag_cpu_profile : string
}.

(** What the calls that can fail return: the process table, the own pid,
    and the error, if any, of [os.Create], [record.New], [record.Load] and
    [setupUI]. *)
Record World : Type := {
  world_procs : error + list Proc;
  world_getpid : Z;
  world_create : string → option error;
  world_record_new : option error;
  world_record_load : string → option error;
  world_setup_ui : Z → option error
}.

(** An [int64], from the integer that a product would be. *)
Definition wrap64 (z : Z) : Z := (z + 2 ^ 63) `mod` 2 ^ 64 - 2 ^ 63.

(** [time.Millisecond * time.Duration(refreshPeriod)], in nanoseconds. *)
Definition tickerDuration (period : Z) : Z := wrap64 (1000000 * period).

(** What one pass of the loop does with what the [select] received. *)
Inductive pass : Type :=
| Continue (paused : bool) (calls : list action)
| StopReturn
| StopPanic (c : crash).

(** The [switch] on [e.ID]: the calls it makes and the new [paused], or the
    end of [main]. *)
Definition onEventID (e : Event) (paused : bool) : pass :=
  if decide (ID e = "q" ∨ ID e = "<C-c>") then StopReturn
  else if decide (ID e = "<Resize>") then
    match EventPayload e with
    | Resize width height => Continue paused [SetRect 0 0 width height]
    | OtherPayload => StopPanic (CrashAssertion e)
    end
  else if decide (ID e = "<Left>") then Continue paused [FocusLeft]
  else if decide (ID e = "<Right>") then Continue paused [FocusRight]
  else if decide (ID e = "<Space>" ∨ ID e = "p") then Continue (negb paused) []
  else if decide (ID e = "f") then Continue paused [UpdateUI; UpdateTabs]
  else Continue paused [].

(** The body of the [for]: the [select], then [updateUI()]. *)
Definition onInput (i : input) (paused : bool) : pass :=
  match i with
  | Tick => Continue paused [UpdateTabs; UpdateUI]
  | UI e =>
      match onEventID e paused with
      | Continue paused' calls => Continue paused' (calls ++ [TabEvent e; UpdateUI])
      | stop => stop
      end
  end.

(** The [for] over the inputs received, [trace] being the calls made so
    far. *)
Fixpoint eventLoop (inputs : list input) (paused : bool) (trace : list action)
  : mainEnd * bool * list action :=
  match inputs with
  | [] => (Waiting, paused, trace)
  | i :: rest =>
      match onInput i paused with
      | Continue paused' calls => eventLoop rest paused' (trace ++ calls)
      | StopReturn => (Returned, paused, trace)
      | StopPanic c => (Crashed c, paused, trace)
      end
  end.

(** The deferred calls, in the order they run: [closeUI], then
    [pprof.StopCPUProfile] when the profile was started. *)
Definition deferred (profiling : bool) : list action :=
  CloseUI :: (if profiling then [StopCPUProfile] else []).

(** The end of [main] from [setupUI] on, [profiling] telling whether the
    profile was started. *)
Definition runUI (fl : Flags) (w : World) (pid : Z) (profiling : bool)
    (paused : bool) (inputs : list input) (trace : list action)
  : mainEnd * bool * list action :=
  match world_setup_ui w pid with
  | Some err =>
      (Exited 1, paused,
       trace ++ [SetupUI pid; Print (Error_ err +:+ String "010" "")])
  | None =>
      let trace := trace ++ [SetupUI pid; UpdateTabs; UpdateTabs; UpdateUI;
                             PollEvents] in
      let d := tickerDuration (flag_period fl) in
      if decide (d ≤ 0) then
        (Crashed (CrashTicker d), paused, trace ++ deferred profiling)
      else
        match eventLoop inputs paused (trace ++ [NewTicker d]) with
        | (Waiting, paused', trace') => (Waiting, paused', trace')
        | (Exited code, paused', trace') => (Exited code, paused', trace')
        | (end_, paused', trace') => (end_, paused', trace' ++ deferred profiling)
        end
  end.

(** The choice between recording and replaying, then the rest. *)
Definition runSession (fl : Flags) (w : World) (pid : Z) (profiling : bool)
    (paused : bool) (inputs : list input) (trace : list action)
  : mainEnd * bool * list action :=
  if decide (flag_record fl ≠ "") then
    match world_record_new w with
    | Some err =>
        (Exited 1, paused,
         trace ++ [RecordNew; Print (Error_ err +:+ String "010" "")])
    | None => runUI fl w pid profiling paused inputs (trace ++ [RecordNew])
    end
  else if decide (flag_replay fl ≠ "") then
    match world_record_load w (flag_replay fl) with
    | Some err =>
        (Exited 1, paused,
         trace ++ [RecordLoad (flag_replay fl);
                   Print (Error_ err +:+ String "010" "")])
    | None =>
        runUI fl w pid profiling paused inputs
          (trace ++ [RecordLoad (flag_replay fl)])
    end
  else runUI fl w pid profiling paused inputs trace.

(** [main], given the flags, the results of the calls that can fail, the
    value of [paused] on entry and the inputs that the loop receives.  It
    gives how [main] ends, the last value of [paused] and the calls made. *)
Definition main (fl : Flags) (w : World) (paused : bool) (inputs : list input)
  : mainEnd * bool * list action :=
  match searchTarget (flag_search fl) (world_procs w) (world_getpid w)
          (flag_pid fl) with
  | Panics p => (Crashed (CrashPanic p), paused, [])
  | Returns st =>
      let trace := Print <$> stdout st in
      match ended st with
      | Exit code => (Exited code, paused, trace)
      | Return =>
          let pid := TargetPID st in
          if decide (flag_cpu_profile fl ≠ "") then
            match world_create w (flag_cpu_profile fl) with
            | Some err =>
                (Crashed (CrashPanic (PanicError err)), paused,
                 trace ++ [CreateFile (flag_cpu_profile fl)])
            | None =>
                runSession fl w pid true paused inputs
                  (trace ++ [CreateFile (flag_cpu_profile fl); StartCPUProfile])
            end
          else runSession fl w pid false paused inputs trace
      end
  end.

(** ** Notions used to state the properties of [main] *)

Fixpoint countIf {A : Type} (f : A → bool) (l : list A) : nat :=
  match l with
  | [] => 0
  | x :: l' => ((if f x then 1 else 0) + countIf f l')%nat
  end.

Definition isTick (i : input) : bool :=
  match i with Tick => true | UI _ => false end.

(** An event whose [ID] is one of [ids]. *)
Definition hasID (ids : list string) (i : input) : bool :=
  match i with
  | Tick => false
  | UI e => bool_decide (ID e ∈ ids)
  end.

(** An input at which a pass of the loop ends [main]. *)
Definition stopsLoop (i : input) : bool :=
  match onInput i false with
  | Continue _ _ => false
  | _ => true
  end.

Definition isUpdateTabs (a : action) : bool :=
  match a with UpdateTabs => true | _ => false end.

Definition isUpdateUI (a : action) : bool :=
  match a with UpdateUI => true | _ => false end.

Definition isTabEvent (a : action) : bool :=
  match a with TabEvent _ => true | _ => false end.

(** The calls that a pass of the loop can make. *)
Definition isLoopAction (a : action) : bool :=
  match a with
  | UpdateTabs | UpdateUI | SetRect _ _ _ _ | FocusLeft | FocusRight
  | TabEvent _ => true
  | _ => false
  end.


Definition isSessionAction (a : action) : bool :=
  match a with RecordNew | RecordLoad _ => true | _ => false end.

(** Sample flags and results, where no call fails. *)
Definition sampleFlags : Flags :=
  {| flag_pid := 0; flag_search := "ssh"; flag_period := 500;
     flag_record := ""; flag_replay := ""; flag_cpu_profile := "" |}.

Definition sampleWorld : World :=
  {| world_procs := inr sampleProcs; world_getpid := 4242;
     world_create := λ _, None; world_record_new := None;
     world_record_load := λ _, None; world_setup_ui := λ _, None |}.

Definition keyEvent (id : string) : input :=
  UI {| ID := id; EventPayload := OtherPayload |}.


(** Sample lines of the three kinds of table. *)
Definition tcpLine : string :=
  "   0: 0100007F:13AD 00000000:0000 0A 00000000:00000000 00:00000000 00000000  1000        0 18083222".

Definition unixLine : string :=
  "0000000000000000: 00000002 00000000 00010000 0001 01 28271 /run/user/1000/gnupg/S.dirmngr".

Definition netlinkLine : string :=
  "0000000000000000 0   2014       00000110 0        0        0        2         0         27854".

(** * Properties *)

(** ** The library functions *)

Lemma string_app_cons (c : ascii) (s t : string) :
  String c s +:+ t = String c (s +:+ t).
Proof. reflexivity. Qed.

Lemma string_app_nil_r (s : string) : s +:+ "" = s.
Proof.
  induction s as [|c s IH]; [done|]. by rewrite string_app_cons, IH.
Qed.

Lemma string_app_assoc (s t u : string) : (s +:+ t) +:+ u = s +:+ (t +:+ u).
Proof.
  induction s as [|c s IH]; [done|]. by rewrite !string_app_cons, IH.
Qed.

Lemma string_app_snoc (s t : string) (c : ascii) :
  (s +:+ String c "") +:+ t = s +:+ String c t.
Proof. by rewrite string_app_assoc. Qed.

(** A string without the separator is the one piece of its split. *)
Lemma SplitFrom_no_sep (sep : ascii) (cur s : string) :
  strings.ContainsByte s sep = false →
  strings.SplitFrom sep cur s = [cur +:+ s].
Proof.
  revert cur. induction s as [|c s IH]; intros cur Hs; simpl in *.
  - by rewrite string_app_nil_r.
  - apply orb_false_iff in Hs as [Hc Hs]. rewrite Hc.
    rewrite IH by done. by rewrite string_app_snoc.
Qed.

Lemma Split_no_sep (sep : ascii) (s : string) :
  strings.ContainsByte s sep = false → strings.Split s sep = [s].
Proof. apply SplitFrom_no_sep. Qed.






(** ** The decoders *)

Lemma length_ge_7 {A : Type} (l : list A) :
  (7 ≤ length l)%nat →
  ∃ a0 a1 a2 a3 a4 a5 a6 rest, l = a0 :: a1 :: a2 :: a3 :: a4 :: a5 :: a6 :: rest.
Proof.
  intros Hl. do 7 (destruct l as [|? l]; [simpl in Hl; lia|]). by eauto 10.
Qed.

Lemma length_ge_10 {A : Type} (l : list A) :
  (10 ≤ length l)%nat →
  ∃ a0 a1 a2 a3 a4 a5 a6 a7 a8 a9 rest,
    l = a0 :: a1 :: a2 :: a3 :: a4 :: a5 :: a6 :: a7 :: a8 :: a9 :: rest.
Proof.
  intros Hl. do 10 (destruct l as [|? l]; [simpl in Hl; lia|]). by eauto 12.
Qed.

Section DecoderProperties.
Context `{HostEnv}.

(** A line of at least ten fields whose address columns split in two and
    whose numeric columns convert decodes, whatever its state code is. *)
Lemma parseIP_decodes (filename line protocol : string)
    (f0 f1 f2 f3 f4 f5 f6 f7 f8 f9 : string) (rest : list string)
    (l0 l1 r0 r1 : string) (ls rs : list string)
    (st sp dp : N) (sip dip : IP) (uid ino : Z) :
  strings.Fields line
    = f0 :: f1 :: f2 :: f3 :: f4 :: f5 :: f6 :: f7 :: f8 :: f9 :: rest →
  strings.Split f1 ":" = l0 :: l1 :: ls →
  strings.Split f2 ":" = r0 :: r1 :: rs →
  hexToInt f3 = Some st →
  hexToIP l0 = Some sip → hexToInt l1 = Some sp →
  hexToIP r0 = Some dip → hexToInt r1 = Some dp →
  decToInt f7 = Some uid → decToInt f9 = Some ino →
  parseIP filename line protocol
  = Returns
      ({| Proto := protocol; Type_ := 0; TypeString := ""; Groups := "";
          Path := ""; State := st; StateString := label sockStates st;
          SrcIP := sip; SrcPort := sp; DstIP := dip; DstPort := dp;
          UserId := uid; INode := ino |}, None).
Proof.
  intros Hf Hl Hr Hst Hsip Hsp Hdip Hdp Huid Hino.
  unfold parseIP. rewrite Hf. simpl. rewrite Hl, Hr. unfold call. simpl.
  by rewrite Hst, Hsip, Hsp, Hdip, Hdp, Huid, Hino.
Qed.

(** The error return of each decoder is the message of a short line. *)
Lemma parseIP_error (filename line protocol : string) (e : NetworkEntry)
    (err : error) :
  parseIP filename line protocol = Returns (e, Some err) →
  (length (strings.Fields line) < 10)%nat ∧ e = zeroEntry
  ∧ err = parseErrorf filename (length (strings.Fields line)) line.
Proof.
  unfold parseIP. case_decide as Hn; [by intros [= <- <-]|].
  intros Hp. exfalso. revert Hp.
  repeat (match goal with
          | |- context [index ?l ?i] => destruct (index l i); simpl
          | |- context [call ?n ?f ?a] => destruct (call n f a); simpl
          end; try done).
Qed.

Lemma parseUnix_error (filename line protocol : string) (e : NetworkEntry)
    (err : error) :
  parseUnix filename line protocol = Returns (e, Some err) →
  (length (strings.Fields line) < 7)%nat ∧ e = zeroEntry
  ∧ err = parseErrorf filename 7 line.
Proof.
  unfold parseUnix. simpl. case_decide as Hn; [by intros [= <- <-]|].
  intros Hp. exfalso. revert Hp.
  repeat (match goal with
          | |- context [decide ?P] => destruct (decide P); simpl
          | |- context [index ?l ?i] => destruct (index l i); simpl
          | |- context [call ?n ?f ?a] => destruct (call n f a); simpl
          end; try done).
Qed.

Lemma parseNetlink_error (filename line protocol : string) (e : NetworkEntry)
    (err : error) :
  parseNetlink filename line protocol = Returns (e, Some err) →
  (length (strings.Fields line) < 10)%nat ∧ e = zeroEntry
  ∧ err = parseErrorf filename 7 line.
Proof.
  unfold parseNetlink. simpl. case_decide as Hn; [by intros [= <- <-]|].
  intros Hp. exfalso. revert Hp.
  repeat (match goal with
          | |- context [index ?l ?i] => destruct (index l i); simpl
          | |- context [call ?n ?f ?a] => destruct (call n f a); simpl
          end; try done).
Qed.

End DecoderProperties.

(** ** The state table *)

Lemma sockStates_codes (k : N) : is_Some (sockStates !! k) ↔ (1 ≤ k ≤ 12)%N.
Proof.
  split.
  - intros [v Hv]. apply elem_of_list_to_map_2 in Hv.
    repeat (apply elem_of_cons in Hv as [[= -> _]|Hv]; [by vm_compute|]).
    by apply elem_of_nil in Hv.
  - intros Hk.
    assert (k = 1 ∨ k = 2 ∨ k = 3 ∨ k = 4 ∨ k = 5 ∨ k = 6 ∨ k = 7 ∨ k = 8
            ∨ k = 9 ∨ k = 10 ∨ k = 11 ∨ k = 12)%N as Hcases by lia.
    repeat (destruct Hcases as [->|Hcases];
            [eexists; vm_compute; reflexivity|]).
    rewrite Hcases. eexists; vm_compute; reflexivity.
Qed.

Lemma label_unknown_state (k : N) :
  ¬ (1 ≤ k ≤ 12)%N → label sockStates k = "".
Proof.
  intros Hk. unfold label.
  destruct (sockStates !! k) as [v|] eqn:Hv; [|done].
  destruct Hk. apply sockStates_codes. by eauto.
Qed.

Section DecoderClaims.
Context `{HostEnv}.

Lemma parseIP_StateString (filename line protocol : string)
    (e : NetworkEntry) :
  parseIP filename line protocol = Returns (e, None) →
  StateString e = label sockStates (State e).
Proof.
  unfold parseIP. case_decide; [done|].
  repeat (match goal with
          | |- context [index ?l ?i] => destruct (index l i); simpl
          | |- context [call ?n ?f ?a] => destruct (call n f a); simpl
          end; try done).
  by intros [= <-].
Qed.

Lemma parseUnix_StateString (filename line protocol : string)
    (e : NetworkEntry) :
  parseUnix filename line protocol = Returns (e, None) →
  StateString e = label sockStates (State e).
Proof.
  unfold parseUnix. simpl. case_decide; [done|].
  repeat (match goal with
          | |- context [decide ?P] => destruct (decide P); simpl
          | |- context [index ?l ?i] => destruct (index l i); simpl
          | |- context [call ?n ?f ?a] => destruct (call n f a); simpl
          end; try done); by intros [= <-].
Qed.

(** C5, as amended.  The state table has twelve entries, the codes 1 to 12
    of the kernel's TCP states ([TCP_NEW_SYN_RECV] being the twelfth); a
    code outside them has the empty label; both decoders label the state
    they decoded through this table, and a line of the IP tables that
    decodes with a known code decodes as well with an unknown one, its
    label being empty. *)
Theorem sockStates_twelve_labels :
  size sockStates = 12%nat
  ∧ (∀ k : N, is_Some (sockStates !! k) ↔ (1 ≤ k ≤ 12)%N)
  ∧ (∀ k : N, ¬ (1 ≤ k ≤ 12)%N → label sockStates k = "")
  ∧ (∀ filename line protocol e,
       parseIP filename line protocol = Returns (e, None)
       ∨ parseUnix filename line protocol = Returns (e, None) →
       StateString e = label sockStates (State e))
  ∧ (∀ filename line protocol f0 f1 f2 f3 f4 f5 f6 f7 f8 f9 rest
       l0 l1 r0 r1 ls rs st sp dp sip dip uid ino,
       strings.Fields line
         = f0 :: f1 :: f2 :: f3 :: f4 :: f5 :: f6 :: f7 :: f8 :: f9 :: rest →
       strings.Split f1 ":" = l0 :: l1 :: ls →
       strings.Split f2 ":" = r0 :: r1 :: rs →
       hexToInt f3 = Some st →
       hexToIP l0 = Some sip → hexToInt l1 = Some sp →
       hexToIP r0 = Some dip → hexToInt r1 = Some dp →
       decToInt f7 = Some uid → decToInt f9 = Some ino →
       ¬ (1 ≤ st ≤ 12)%N →
       ∃ e, parseIP filename line protocol = Returns (e, None)
            ∧ State e = st ∧ StateString e = "").
Proof.
  split; [by vm_compute|].
  split; [apply sockStates_codes|].
  split; [apply label_unknown_state|].
  split.
  - intros filename line protocol e [Hp|Hp].
    + by eapply parseIP_StateString.
    + by eapply parseUnix_StateString.
  - intros * Hf Hl Hr Hst Hsip Hsp Hdip Hdp Huid Hino Hout.
    eexists. split; [by eapply parseIP_decodes|].
    split; [done|]. simpl. by apply label_unknown_state.
Qed.


(** C10.  The unix and netlink decoders return an error exactly for a line
    of fewer than 7, respectively 10, fields, and its message gives the
    count as 7 whatever the line has; the IP decoder returns an error
    exactly for a line of fewer than 10 fields and gives the count of the
    fields of the line.  In the three messages the file name and the line
    are those the decoder was given. *)
Theorem malformed_count_reported (filename line protocol : string) :
  let n := length (strings.Fields line) in
  (∀ k, parseErrorf filename k line
        = Errorf ("could not parse netstat line from " +:+ filename
                  +:+ " (got " +:+ fmt_len k +:+ " fields): " +:+ line))
  ∧ ((n < 7)%nat →
     parseUnix filename line protocol
     = Returns (zeroEntry, Some (parseErrorf filename 7 line)))
  ∧ (∀ e err, parseUnix filename line protocol = Returns (e, Some err) →
              (n < 7)%nat ∧ err = parseErrorf filename 7 line)
  ∧ ((n < 10)%nat →
     parseNetlink filename line protocol
     = Returns (zeroEntry, Some (parseErrorf filename 7 line)))
  ∧ (∀ e err, parseNetlink filename line protocol = Returns (e, Some err) →
              (n < 10)%nat ∧ err = parseErrorf filename 7 line)
  ∧ ((n < 10)%nat →
     parseIP filename line protocol
     = Returns (zeroEntry, Some (parseErrorf filename n line)))
  ∧ (∀ e err, parseIP filename line protocol = Returns (e, Some err) →
              (n < 10)%nat ∧ err = parseErrorf filename n line).
Proof.
  intros n. subst n. repeat split.
  - intros Hn. unfold parseUnix. simpl. by rewrite decide_True.
  - by eapply parseUnix_error.
  - by eapply parseUnix_error.
  - intros Hn. unfold parseNetlink. simpl. by rewrite decide_True.
  - by eapply parseNetlink_error.
  - by eapply parseNetlink_error.
  - intros Hn. unfold parseIP. by rewrite decide_True.
  - by eapply parseIP_error.
  - by eapply parseIP_error.
Qed.

End DecoderClaims.

Section UnixPath.
Context `{HostEnv}.


End UnixPath.

(** ** The decoders with the helpers of the specification *)

(** C1, as amended.  A line of an IP table has its slot number first; when
    the three fields after it are [0100007F:13AD], [00000000:0000] and [0A],
    the line has at least ten fields and its eighth and tenth fields are
    decimal numbers, it decodes to the source 127.0.0.1 port 5037, the
    destination 0.0.0.0 port 0 and the state 10, [TCP_LISTEN], which the
    state table labels [LISTENING]. *)
Theorem parseIP_loopback_listen
    (filename line protocol f0 f4 f5 f6 f7 f8 f9 : string)
    (rest : list string) (uid ino : Z) :
  strings.Fields line
    = f0 :: "0100007F:13AD" :: "00000000:0000" :: "0A"
      :: f4 :: f5 :: f6 :: f7 :: f8 :: f9 :: rest →
  SpecHelpers.decToInt f7 = Some uid →
  SpecHelpers.decToInt f9 = Some ino →
  @parseIP SpecHelpers.env filename line protocol
  = Returns
      ({| Proto := protocol; Type_ := 0; TypeString := ""; Groups := "";
          Path := ""; State := TCP_LISTEN; StateString := "LISTENING";
          SrcIP := [127; 0; 0; 1]%N; SrcPort := 5037;
          DstIP := [0; 0; 0; 0]%N; DstPort := 0;
          UserId := uid; INode := ino |}, None).
Proof.
  intros Hf Huid Hino.
  rewrite (@parseIP_decodes SpecHelpers.env filename line protocol
             _ _ _ _ _ _ _ _ _ _ _ "0100007F" "13AD" "00000000" "0000" [] []
             10%N 5037%N 0%N [127; 0; 0; 1]%N [0; 0; 0; 0]%N uid ino Hf);
    done.
Qed.

Lemma parseIP_loopback_listen_witness :
  @parseIP SpecHelpers.env "/proc/net/tcp"
    "0: 0100007F:13AD 00000000:0000 0A 00000000:00000000 00:00000000 00000000  1000        0 18083222"
    "tcp"
  = Returns
      ({| Proto := "tcp"; Type_ := 0; TypeString := ""; Groups := "";
          Path := ""; State := TCP_LISTEN; StateString := "LISTENING";
          SrcIP := [127; 0; 0; 1]%N; SrcPort := 5037;
          DstIP := [0; 0; 0; 0]%N; DstPort := 0;
          UserId := 1000; INode := 18083222 |}, None).
Proof.
  apply (parseIP_loopback_listen _ _ _ "0:" "00000000:00000000" "00:00000000"
           "00000000" "1000" "0" "18083222" []); reflexivity.
Defined.

(** The line of C1 as the specification writes it, the address first, is
    not decoded: its third field, the state, has no colon.  And the label of
    state 10 is not [LISTEN]. *)
Lemma parseIP_loopback_literal_line :
  @parseIP SpecHelpers.env "/proc/net/tcp"
    "0100007F:13AD 00000000:0000 0A 0B 00:00000000 00000000 1000 0 18083222 1"
    "tcp"
  = Panics (IndexOutOfRange 1 1)
  ∧ label sockStates 10 ≠ "LISTEN".
Proof. split; [reflexivity|]. by vm_compute. Qed.

(** The table has a twelfth entry. *)
Lemma sockStates_not_eleven :
  size sockStates ≠ 11%nat ∧ label sockStates 12 = "NEW_SYN_RECV".
Proof. split; by vm_compute. Qed.

Lemma sockStates_twelve_labels_witness :
  size sockStates = 12%nat ∧ label sockStates 0 = ""
  ∧ label sockStates 13 = "".
Proof.
  destruct (@sockStates_twelve_labels SpecHelpers.env) as (Hsize & _ & Hout & _).
  split; [exact Hsize|]. split; apply Hout; lia.
Defined.


Lemma malformed_count_reported_witness :
  @parseUnix SpecHelpers.env "/proc/net/unix" "0000000000000000: 00000002 00000000" "unix"
  = Returns (zeroEntry,
             Some (Errorf "could not parse netstat line from /proc/net/unix (got 7 fields): 0000000000000000: 00000002 00000000")).
Proof.
  destruct (@malformed_count_reported SpecHelpers.env "/proc/net/unix"
              "0000000000000000: 00000002 00000000" "unix")
    as (_ & Hunix & _).
  apply Hunix. vm_compute. lia.
Defined.


(** ** The table scanner *)

(** Trimming a line does not change its fields. *)
Lemma cutset_isSpace (c : ascii) : str.cutset c = true → strings.isSpace c = true.
Proof.
  destruct c as [[] [] [] [] [] [] [] []]; simpl; intros Hc; done.
Qed.

Lemma FieldsFrom_TrimLeft (s : string) :
  strings.Fields (strings.TrimLeft str.cutset s) = strings.Fields s.
Proof.
  unfold strings.Fields. induction s as [|c s IH]; [done|]. simpl.
  destruct (str.cutset c) eqn:Hc; [|done].
  by rewrite (cutset_isSpace _ Hc).
Qed.

Lemma FieldsFrom_TrimRight (cur s : string) :
  strings.FieldsFrom cur (strings.TrimRight str.cutset s)
  = strings.FieldsFrom cur s.
Proof.
  revert cur. induction s as [|c s IH]; intros cur; [done|]. simpl.
  destruct (strings.TrimRight str.cutset s) as [|d t] eqn:Ht.
  - destruct (str.cutset c) eqn:Hc.
    + rewrite (cutset_isSpace _ Hc), <- !IH. simpl.
      by destruct (decide (cur = "")).
    + simpl. destruct (strings.isSpace c); by rewrite <- !IH.
  - simpl. destruct (strings.isSpace c); by rewrite <- !IH.
Qed.

Lemma Fields_Trim (s : string) : strings.Fields (str.Trim s) = strings.Fields s.
Proof.
  unfold str.Trim, strings.Trim, strings.Fields.
  rewrite FieldsFrom_TrimRight. apply FieldsFrom_TrimLeft.
Qed.

Section ScannerProperties.
Context `{HostEnv}.




End ScannerProperties.

Section ScannerClaims.
Context `{HostEnv}.


End ScannerClaims.



(** ** The inode index *)

Lemma addEntries_app (m : NetworkINodes) (es1 es2 : list NetworkEntry) :
  addEntries m (es1 ++ es2) = addEntries (addEntries m es1) es2.
Proof. apply foldl_app. Qed.

(** After the entries are added, an inode maps to the last entry that
    carries it, or to what it mapped to before when none does. *)
Lemma addEntries_lookup (m : NetworkINodes) (es : list NetworkEntry) (i : Z) :
  addEntries m es !! i
  = match last (withINode i es) with
    | Some e => Some e
    | None => m !! i
    end.
Proof.
  revert m. induction es as [|e es IH]; intros m; [done|].
  unfold addEntries in *. simpl. rewrite IH. unfold withINode.
  rewrite filter_cons. destruct (decide (INode e = i)) as [Hi|Hi].
  - rewrite last_cons.
    destruct (last (filter (λ e, INode e = i) es)); [done|].
    by rewrite Hi, lookup_insert_eq.
  - destruct (last (filter (λ e, INode e = i) es)); [done|].
    by rewrite lookup_insert_ne.
Qed.

(** Entries of pairwise distinct inodes, none of them in the map yet, each
    add one to its size. *)
Lemma addEntries_size (m : NetworkINodes) (es : list NetworkEntry) :
  NoDup (INode <$> es) →
  (∀ e, e ∈ es → m !! INode e = None) →
  size (addEntries m es) = (size m + length es)%nat.
Proof.
  revert m. induction es as [|e es IH]; intros m Hnd Hfresh; simpl.
  - unfold addEntries. simpl. lia.
  - apply NoDup_cons in Hnd as [He Hnd].
    unfold addEntries in *. simpl. rewrite IH; [|done|].
    + rewrite map_size_insert_None; [lia|]. apply Hfresh. by left.
    + intros e' He'. rewrite lookup_insert_ne.
      * apply Hfresh. by right.
      * intros Heq. apply He. rewrite Heq. by apply list_elem_of_fmap_2.
Qed.

Section IndexProperties.
Context `{HostEnv}.

(** The families that scan are folded in order. *)
Lemma indexLoop_scanned (fs : FS) (protos rest : list string)
    (scans : list (list NetworkEntry)) (byInode : NetworkINodes) :
  Forall2 (λ p es, parseNetworkForProtocol fs p = Returns (es, None))
    protos scans →
  indexLoop fs (protos ++ rest) byInode
  = indexLoop fs rest (addEntries byInode (concat scans)).
Proof.
  intros Hs. revert byInode.
  induction Hs as [|p es protos scans Hp _ IH]; intros byInode; [done|].
  simpl. rewrite Hp. simpl. by rewrite IH, addEntries_app.
Qed.

(** A map is returned only when no family of the list failed to open. *)
Lemma indexLoop_returns_map (fs : FS) (protos : list string)
    (byInode m : NetworkINodes) (err : option error) (proto : string) :
  indexLoop fs protos byInode = Returns (Some m, err) →
  proto ∈ protos →
  ∃ es, parseNetworkForProtocol fs proto = Returns (es, None).
Proof.
  revert byInode. induction protos as [|p protos IH]; intros byInode Hm Hin.
  - by apply elem_of_nil in Hin.
  - simpl in Hm.
    destruct (parseNetworkForProtocol fs p) as [[es [e|]]|q] eqn:Hp;
      simpl in Hm; try done.
    apply elem_of_cons in Hin as [->|Hin]; [by eauto|].
    by eapply IH.
Qed.

End IndexProperties.

Lemma withINode_last_split (xs ys : list NetworkEntry) (e : NetworkEntry) :
  (∀ e', e' ∈ ys → INode e' ≠ INode e) →
  last (withINode (INode e) (xs ++ e :: ys)) = Some e.
Proof.
  intros Hys. unfold withINode. rewrite filter_app, filter_cons_True by done.
  assert (filter (λ e', INode e' = INode e) ys = []) as ->.
  { induction ys as [|y ys IH]; [done|].
    rewrite filter_cons_False; [|by apply Hys; left].
    apply IH. intros e' He'. apply Hys. by right. }
  by rewrite last_snoc.
Qed.

Section IndexClaims.
Context `{HostEnv}.

(** C2.  The index is built from the six tables in the order tcp, tcp6,
    udp, udp6, unix, netlink: when the six scans return their records, the
    index is the map that holds, for each inode, the last record carrying
    it in the concatenation of the six lists in that order.  So every
    record's inode is a key, and a record is the value of its inode exactly
    when no record after it, of its family or of a later one, has the
    same inode. *)
Theorem parseNetworkInodes_later_wins (fs : FS)
    (tcp tcp6 udp udp6 unix netlink : list NetworkEntry) :
  parseNetworkForProtocol fs "tcp" = Returns (tcp, None) →
  parseNetworkForProtocol fs "tcp6" = Returns (tcp6, None) →
  parseNetworkForProtocol fs "udp" = Returns (udp, None) →
  parseNetworkForProtocol fs "udp6" = Returns (udp6, None) →
  parseNetworkForProtocol fs "unix" = Returns (unix, None) →
  parseNetworkForProtocol fs "netlink" = Returns (netlink, None) →
  let all := tcp ++ tcp6 ++ udp ++ udp6 ++ unix ++ netlink in
  protocols = ["tcp"; "tcp6"; "udp"; "udp6"; "unix"; "netlink"]
  ∧ ∃ m : NetworkINodes,
      parseNetworkInodes fs = Returns (Some m, None)
      ∧ m = addEntries ∅ all
      ∧ (∀ i, m !! i = last (withINode i all))
      ∧ (∀ e, e ∈ all → is_Some (m !! INode e))
      ∧ (∀ xs e ys, all = xs ++ e :: ys →
           (∀ e', e' ∈ ys → INode e' ≠ INode e) →
           m !! INode e = Some e).
Proof.
  intros H1 H2 H3 H4 H5 H6 all. split; [done|].
  assert (∀ i, addEntries ∅ all !! i = last (withINode i all)) as Hlook.
  { intros i. rewrite addEntries_lookup, lookup_empty.
    by destruct (last (withINode i all)). }
  exists (addEntries ∅ all). repeat split; try done.
  - unfold parseNetworkInodes.
    rewrite <- (app_nil_r protocols).
    rewrite (indexLoop_scanned fs protocols []
               [tcp; tcp6; udp; udp6; unix; netlink] ∅)
      by (repeat constructor; done).
    simpl. by rewrite app_nil_r.
  - intros e He. rewrite Hlook.
    apply list_elem_of_split in He as (xs & ys & ->).
    assert (INode e = INode e) as Heq by done.
    unfold withINode. rewrite filter_app, filter_cons_True by done.
    destruct (filter (λ e0, INode e0 = INode e) ys) as [|y l] using rev_ind.
    + rewrite last_snoc. by eauto.
    + rewrite app_comm_cons, app_assoc, last_snoc. by eauto.
  - intros xs e ys Hall Hys. rewrite Hlook, Hall.
    by apply withINode_last_split.
Qed.

(** C3.  When the table of a family cannot be opened, no index is
    returned; and when the families before it in the list scan, the result
    is the [nil] map with the error of that open. *)
Theorem parseNetworkInodes_first_error (fs : FS) (scanned rest : list string)
    (proto : string) (err : error) :
  protocols = scanned ++ proto :: rest →
  fs (ProcFS +:+ "/net/" +:+ proto) = OpenError err →
  (∀ m e, parseNetworkInodes fs ≠ Returns (Some m, e))
  ∧ (∀ scans,
       Forall2 (λ p es, parseNetworkForProtocol fs p = Returns (es, None))
         scanned scans →
       parseNetworkInodes fs = Returns (None, Some err)).
Proof.
  intros Hprotos Hfs.
  assert (parseNetworkForProtocol fs proto = Returns ([], Some err)) as Hp.
  { unfold parseNetworkForProtocol. by rewrite Hfs. }
  split.
  - intros m e Hm. unfold parseNetworkInodes in Hm.
    destruct (indexLoop_returns_map fs protocols ∅ m e proto Hm) as [es Hes].
    + rewrite Hprotos. apply elem_of_app. right. by left.
    + by rewrite Hp in Hes.
  - intros scans Hscans. unfold parseNetworkInodes. rewrite Hprotos.
    rewrite (indexLoop_scanned fs scanned (proto :: rest) scans ∅ Hscans).
    simpl. by rewrite Hp.
Qed.

(** C6, as amended.  When two families scan to records whose inodes are
    pairwise distinct, within each family and between the two, the index
    built over the two has as many keys as the two families have records. *)
Theorem index_size_disjoint (fs : FS) (p1 p2 : string)
    (es1 es2 : list NetworkEntry) :
  parseNetworkForProtocol fs p1 = Returns (es1, None) →
  parseNetworkForProtocol fs p2 = Returns (es2, None) →
  (∀ e1 e2, e1 ∈ es1 → e2 ∈ es2 → INode e1 ≠ INode e2) →
  NoDup (INode <$> es1) →
  NoDup (INode <$> es2) →
  ∃ m : NetworkINodes,
    indexLoop fs [p1; p2] ∅ = Returns (Some m, None)
    ∧ size m = (length es1 + length es2)%nat.
Proof.
  intros H1 H2 Hdisj Hnd1 Hnd2.
  exists (addEntries ∅ (es1 ++ es2)). split.
  - simpl. rewrite H1. simpl. rewrite H2. simpl.
    by rewrite addEntries_app.
  - rewrite addEntries_size, length_app; [done| |done].
    rewrite fmap_app. apply NoDup_app. split; [done|]. split; [|done].
    intros i [e1 [-> He1]]%list_elem_of_fmap [e2 [Heq He2]]%list_elem_of_fmap.
    by eapply Hdisj.
Qed.

End IndexClaims.

Lemma parseNetworkInodes_later_wins_witness :
  ∃ (m : NetworkINodes) (e : NetworkEntry),
    @parseNetworkInodes SpecHelpers.env sampleFS = Returns (Some m, None)
    ∧ m !! 18083222 = Some e ∧ Proto e = "unix" ∧ size m = 3%nat.
Proof.
  edestruct (@parseNetworkInodes_later_wins SpecHelpers.env sampleFS)
    as (_ & m & Hm & Heq & _); [reflexivity ..|].
  exists m. eexists. split; [exact Hm|]. rewrite Heq.
  vm_compute. repeat split.
Defined.

Lemma parseNetworkInodes_first_error_witness :
  @parseNetworkInodes SpecHelpers.env noUdpFS
  = Returns (None,
             Some (PathError "open" "/proc/net/udp" "no such file or directory")).
Proof.
  eapply (@parseNetworkInodes_first_error SpecHelpers.env noUdpFS
            ["tcp"; "tcp6"] ["udp6"; "unix"; "netlink"] "udp").
  - reflexivity.
  - reflexivity.
  - repeat econstructor.
Defined.

Lemma index_size_disjoint_witness :
  ∃ m : NetworkINodes,
    @indexLoop SpecHelpers.env sampleFS ["tcp"; "udp"] ∅ = Returns (Some m, None)
    ∧ size m = 2%nat.
Proof.
  edestruct (@index_size_disjoint SpecHelpers.env sampleFS "tcp" "udp")
    as (m & Hm & Hsize); [reflexivity | reflexivity | | | |].
  - intros e1 e2 He1%list_elem_of_singleton He2%list_elem_of_singleton.
    by subst.
  - vm_compute. repeat constructor; set_solver.
  - vm_compute. repeat constructor; set_solver.
  - exists m. split; [exact Hm|exact Hsize].
Defined.

(** Two families without a common inode, three records, two keys. *)
Lemma index_size_time_wait :
  ∃ (es1 es2 : list NetworkEntry) (m : NetworkINodes),
    @parseNetworkForProtocol SpecHelpers.env timeWaitFS "tcp" = Returns (es1, None)
    ∧ @parseNetworkForProtocol SpecHelpers.env timeWaitFS "udp" = Returns (es2, None)
    ∧ INode <$> es1 = [0; 0] ∧ INode <$> es2 = [21074]
    ∧ @indexLoop SpecHelpers.env timeWaitFS ["tcp"; "udp"] ∅ = Returns (Some m, None)
    ∧ size m = 2%nat
    ∧ size m ≠ (length es1 + length es2)%nat.
Proof.
  do 3 eexists. split; [reflexivity|]. split; [reflexivity|].
  split; [reflexivity|]. split; [reflexivity|].
  split; [reflexivity|]. split; by vm_compute.
Qed.

(** ** The search of the target *)

Lemma collectMatches_from (targetName : string) (procs : list Proc)
    (m : gmap Z Proc) (l : list Z) :
  foldl
    (λ (acc : gmap Z Proc * list Z) proc,
       let comm := Comm proc in
       if decide (comm ≠ "" ∧ strings.Index comm targetName ≠ -1)
       then (<[PID proc := proc]> acc.1, acc.2 ++ [PID proc])
       else acc)
    (m, l) procs
  = (addProcs m (matching targetName procs),
     l ++ (PID <$> matching targetName procs)).
Proof.
  revert m l. induction procs as [|proc procs IH]; intros m l; simpl.
  - by rewrite app_nil_r.
  - unfold matching. rewrite filter_cons.
    destruct (decide (Comm proc ≠ "" ∧ strings.Index (Comm proc) targetName ≠ -1));
      rewrite IH; [|done].
    simpl. by rewrite <- app_assoc.
Qed.

Lemma collectMatches_matching (targetName : string) (procs : list Proc) :
  collectMatches targetName procs
  = (addProcs ∅ (matching targetName procs), PID <$> matching targetName procs).
Proof. apply collectMatches_from. Qed.

Lemma addProcs_dom (m : gmap Z Proc) (procs : list Proc) :
  dom (addProcs m procs) = dom m ∪ list_to_set (PID <$> procs).
Proof.
  revert m. induction procs as [|proc procs IH]; intros m.
  - simpl. by rewrite (right_id_L ∅ (∪)).
  - unfold addProcs in *. simpl. rewrite IH, dom_insert_L.
    by rewrite (comm_L (∪) {[PID proc]} (dom m)), <- (assoc_L (∪)).
Qed.

(** Every value of the map is a process of the list under its own pid. *)
Lemma addProcs_lookup (procs : list Proc) (pid : Z) (proc : Proc) :
  addProcs ∅ procs !! pid = Some proc → proc ∈ procs ∧ PID proc = pid.
Proof.
  assert (∀ m, addProcs m procs !! pid = Some proc →
               m !! pid = Some proc ∨ (proc ∈ procs ∧ PID proc = pid)) as Hgen.
  { induction procs as [|p procs IH]; intros m Hm; [by left|].
    unfold addProcs in *. simpl in Hm.
    destruct (IH _ Hm) as [Hl|[Hin Hpid]].
    - destruct (decide (PID p = pid)) as [Heq|Hne].
      + rewrite Heq, lookup_insert_eq in Hl. injection Hl as ->.
        right. split; [by left|done].
      + rewrite lookup_insert_ne in Hl by done. by left.
    - right. split; [by right|done]. }
  intros Hm. destruct (Hgen ∅ Hm) as [Hl|Hr]; [|done].
  by rewrite lookup_empty in Hl.
Qed.

Lemma matches_size (targetName : string) (procs : list Proc) :
  size (addProcs ∅ (matching targetName procs))
  = size (list_to_set (PID <$> matching targetName procs) : gset Z).
Proof.
  by rewrite <- size_dom, addProcs_dom, dom_empty_L, (left_id_L ∅ (∪)).
Qed.

(** C8, as amended.  For a search string that is not empty, and the
    processes that [procfs.AllProcs] returned: when no process matches, the
    program prints that and exits with status 1; when the matches have more
    than one process id, it prints one line for each id, in ascending
    order of the ids, and exits without setting the target; when they have
    one process id, that id becomes the target and the function returns. *)
Theorem searchTarget_resolves (targetName : string) (procs : list Proc)
    (getpid targetPID : Z) :
  targetName ≠ "" →
  let ms := matching targetName procs in
  let pids : gset Z := list_to_set (PID <$> ms) in
  (ms = [] →
   searchTarget targetName (inr procs) getpid targetPID
   = Returns {| ended := Exit 1; TargetPID := targetPID;
                stdout := ["no matches for '" +:+ targetName +:+ "'"
                           +:+ String "010" ""] |})
  ∧ ((1 < size pids)%nat →
     ∃ sorted lines,
       searchTarget targetName (inr procs) getpid targetPID
       = Returns {| ended := Exit 0; TargetPID := targetPID;
                    stdout := ("multiple matches for '" +:+ targetName +:+ "':"
                               +:+ String "010" "") :: lines |}
       ∧ Sorted Z.le sorted
       ∧ sorted ≡ₚ PID <$> ms
       ∧ Forall2 (λ pid line, ∃ proc, proc ∈ ms ∧ PID proc = pid
                                      ∧ line = procLine pid proc)
           sorted lines)
  ∧ (∀ pid, pids = {[pid]} →
     searchTarget targetName (inr procs) getpid targetPID
     = Returns {| ended := Return; TargetPID := pid; stdout := [] |}).
Proof.
  intros Hname ms pids. unfold searchTarget.
  rewrite decide_True by done.
  rewrite collectMatches_matching. cbv beta iota zeta.
  rewrite (matches_size targetName procs). fold ms. fold pids.
  split; [|split].
  - intros Hms.
    assert (size pids = 0%nat) as Hsize.
    { subst pids. rewrite Hms. apply size_empty. }
    rewrite Hsize. by rewrite decide_True.
  - intros Hsize.
    rewrite decide_False by lia. rewrite decide_True by done.
    exists (sortInts (PID <$> ms)), (matchLine (addProcs ∅ ms) <$> sortInts (PID <$> ms)).
    split; [done|]. split; [apply Sorted_merge_sort; apply _|].
    split; [apply merge_sort_Permutation|].
    apply Forall2_fmap_r, Forall_Forall2_diag, Forall_forall.
    intros pid Hpid. unfold sortInts in Hpid.
    rewrite merge_sort_Permutation in Hpid.
    assert (pid ∈ dom (addProcs ∅ ms)) as Hdom.
    { rewrite addProcs_dom. apply elem_of_union_r.
      by apply elem_of_list_to_set. }
    apply elem_of_dom in Hdom as [proc Hproc].
    exists proc. destruct (addProcs_lookup _ _ _ Hproc) as [Hin Heq].
    split; [done|]. split; [done|]. unfold matchLine. by rewrite Hproc.
  - intros pid Hpids. rewrite Hpids, size_singleton.
    rewrite decide_False by lia. rewrite decide_False by lia.
    assert (dom (addProcs ∅ ms) = {[pid]}) as Hdom.
    { rewrite addProcs_dom, dom_empty_L. fold pids.
      by rewrite Hpids, (left_id_L ∅ (∪)). }
    assert (length (map_to_list (addProcs ∅ ms)) = 1%nat) as Hlen.
    { by rewrite length_map_to_list, <- size_dom, Hdom, size_singleton. }
    destruct (map_to_list (addProcs ∅ ms)) as [|[pid' proc] [|]] eqn:Hl;
      try discriminate Hlen.
    assert ((pid', proc) ∈ map_to_list (addProcs ∅ ms)) as Hin.
    { rewrite Hl. by left. }
    apply elem_of_map_to_list in Hin.
    assert (pid' ∈ dom (addProcs ∅ ms)) as Hin' by (apply elem_of_dom; eauto).
    rewrite Hdom in Hin'. apply elem_of_singleton in Hin'. by subst.
Qed.

Lemma searchTarget_resolves_witness :
  searchTarget "ssh" (inr sampleProcs) 99 0
  = Returns {| ended := Return; TargetPID := 4; stdout := [] |}
  ∧ searchTarget "zsh" (inr sampleProcs) 99 0
    = Returns {| ended := Exit 1; TargetPID := 0;
                 stdout := ["no matches for 'zsh'" +:+ String "010" ""] |}
  ∧ ∃ lines,
      searchTarget "sh" (inr sampleProcs) 99 0
      = Returns {| ended := Exit 0; TargetPID := 0;
                   stdout := ("multiple matches for 'sh':" +:+ String "010" "")
                             :: lines |}
      ∧ length lines = 2%nat.
Proof.
  split; [|split].
  - destruct (searchTarget_resolves "ssh" sampleProcs 99 0) as (_ & _ & Hone);
      [done|].
    apply Hone. reflexivity.
  - destruct (searchTarget_resolves "zsh" sampleProcs 99 0) as (Hzero & _);
      [done|].
    apply Hzero. reflexivity.
  - destruct (searchTarget_resolves "sh" sampleProcs 99 0) as (_ & Hmany & _);
      [done|].
    destruct Hmany as (sorted & lines & Hrun & _ & Hperm & Hlines);
      [vm_compute; lia|].
    exists lines. split; [exact Hrun|].
    apply Forall2_length in Hlines. apply Permutation_length in Hperm.
    rewrite <- Hlines, Hperm. reflexivity.
Defined.

(** With the empty search string no search is made: no matching process is
    not a failure, and several are not reported. *)
Lemma searchTarget_empty_name :
  matching "" [] = []
  ∧ searchTarget "" (inr []) 4242 0
    = Returns {| ended := Return; TargetPID := 4242; stdout := [] |}
  ∧ matching "" sampleProcs = sampleProcs
  ∧ searchTarget "" (inr sampleProcs) 4242 0
    = Returns {| ended := Return; TargetPID := 4242; stdout := [] |}.
Proof. repeat split. Qed.

(** * Further properties of the decoders *)

(** A string that splits in two pieces or more has the separator. *)
Lemma Split_two_pieces (sep : ascii) (s p0 p1 : string) (ps : list string) :
  strings.Split s sep = p0 :: p1 :: ps → strings.ContainsByte s sep = true.
Proof.
  intros Hs. destruct (strings.ContainsByte s sep) eqn:Hc; [done|].
  by rewrite (Split_no_sep _ _ Hc) in Hs.
Qed.

(** No field is empty. *)
Lemma FieldsFrom_nonempty (cur s f : string) :
  f ∈ strings.FieldsFrom cur s → f ≠ "".
Proof.
  revert cur. induction s as [|c s IH]; intros cur; simpl.
  - destruct (decide (cur = "")); [by intros ?%elem_of_nil|].
    by intros ->%list_elem_of_singleton.
  - destruct (strings.isSpace c).
    + destruct (decide (cur = "")); [by apply IH|].
      intros [->|Hin]%elem_of_cons; [done|by eapply IH].
    + by apply IH.
Qed.

Lemma Fields_nonempty (s f : string) : f ∈ strings.Fields s → f ≠ "".
Proof. apply FieldsFrom_nonempty. Qed.

Section DecoderOutcomes.
Context `{HostEnv}.

(** X1.  A netlink line of at least ten fields decodes exactly when its
    tenth field converts to the inode, and panics in that conversion
    otherwise.  The record keeps the fourth field as it is written for the
    groups, whatever it holds, and leaves every field but the protocol, the
    groups and the inode at its zero value; the fields after the tenth are
    not read. *)
Theorem parseNetlink_outcome (filename line protocol f3 f9 : string) :
  (10 ≤ length (strings.Fields line))%nat →
  strings.Fields line !! 3%nat = Some f3 →
  strings.Fields line !! 9%nat = Some f9 →
  parseNetlink filename line protocol
  = match decToInt f9 with
    | Some ino =>
        Returns
          ({| Proto := protocol; Type_ := 0; TypeString := ""; Groups := f3;
              Path := ""; State := 0; StateString := "";
              SrcIP := []; SrcPort := 0; DstIP := []; DstPort := 0;
              UserId := 0; INode := ino |}, None)
    | None => Panics (ConversionPanic "decToInt" f9)
    end.
Proof.
  intros Hlen H3 H9.
  destruct (length_ge_10 _ Hlen)
    as (a0 & a1 & a2 & a3 & a4 & a5 & a6 & a7 & a8 & a9 & rest & Hf).
  rewrite Hf in H3, H9. simpl in H3, H9.
  injection H3 as ->. injection H9 as ->.
  unfold parseNetlink. rewrite Hf. simpl. unfold call.
  by destruct (decToInt f9).
Qed.

(** A record that [parseIP] returns, traced back to the fields. *)
Lemma parseIP_returns_inv (filename line protocol : string)
    (e : NetworkEntry) :
  parseIP filename line protocol = Returns (e, None) →
  ∃ f0 f1 f2 f3 f4 f5 f6 f7 f8 f9 rest l0 l1 ls r0 r1 rs,
    strings.Fields line
      = f0 :: f1 :: f2 :: f3 :: f4 :: f5 :: f6 :: f7 :: f8 :: f9 :: rest
    ∧ strings.Split f1 ":" = l0 :: l1 :: ls
    ∧ strings.Split f2 ":" = r0 :: r1 :: rs
    ∧ hexToInt f3 = Some (State e)
    ∧ hexToIP l0 = Some (SrcIP e) ∧ hexToInt l1 = Some (SrcPort e)
    ∧ hexToIP r0 = Some (DstIP e) ∧ hexToInt r1 = Some (DstPort e)
    ∧ decToInt f7 = Some (UserId e) ∧ decToInt f9 = Some (INode e)
    ∧ e = {| Proto := protocol; Type_ := 0; TypeString := ""; Groups := "";
             Path := ""; State := State e;
             StateString := label sockStates (State e);
             SrcIP := SrcIP e; SrcPort := SrcPort e;
             DstIP := DstIP e; DstPort := DstPort e;
             UserId := UserId e; INode := INode e |}.
Proof.
  unfold parseIP. case_decide as Hn; [done|].
  destruct (length_ge_10 (strings.Fields line))
    as (f0 & f1 & f2 & f3 & f4 & f5 & f6 & f7 & f8 & f9 & rest & Hf); [lia|].
  rewrite Hf. simpl. unfold call.
  destruct (hexToInt f3) as [st|] eqn:Hst; simpl; [|done].
  destruct (strings.Split f1 ":") as [|l0 [|l1 ls]] eqn:Hl; simpl; [done| |].
  { by destruct (hexToIP l0). }
  destruct (hexToIP l0) as [sip|] eqn:Hsip; simpl; [|done].
  destruct (hexToInt l1) as [sp|] eqn:Hsp; simpl; [|done].
  destruct (strings.Split f2 ":") as [|r0 [|r1 rs]] eqn:Hr; simpl; [done| |].
  { by destruct (hexToIP r0). }
  destruct (hexToIP r0) as [dip|] eqn:Hdip; simpl; [|done].
  destruct (hexToInt r1) as [dp|] eqn:Hdp; simpl; [|done].
  destruct (decToInt f7) as [uid|] eqn:Huid; simpl; [|done].
  destruct (decToInt f9) as [ino|] eqn:Hino; simpl; [|done].
  intros [= <-]. simpl.
  exists f0, f1, f2, f3, f4, f5, f6, f7, f8, f9, rest, l0, l1, ls, r0, r1, rs.
  repeat split; done.
Qed.

(** The protocol of a decoded record is the one that was asked for. *)
Lemma parseLine_Proto (filename line proto : string) (e : NetworkEntry) :
  parseLine filename line proto = Returns (e, None) → Proto e = proto.
Proof.
  unfold parseLine.
  destruct (decide (proto = "unix"));
    [|destruct (decide (proto = "netlink"))].
  - unfold parseUnix. simpl. case_decide; [done|].
    repeat (match goal with
            | |- context [decide ?P] => destruct (decide P); simpl
            | |- context [index ?l ?i] => destruct (index l i); simpl
            | |- context [call ?n ?f ?a] => destruct (call n f a); simpl
            end; try done); by intros [= <-].
  - unfold parseNetlink. simpl. case_decide; [done|].
    repeat (match goal with
            | |- context [index ?l ?i] => destruct (index l i); simpl
            | |- context [call ?n ?f ?a] => destruct (call n f a); simpl
            end; try done).
    by intros [= <-].
  - intros Hp. apply parseIP_returns_inv in Hp
      as (f0 & f1 & f2 & f3 & f4 & f5 & f6 & f7 & f8 & f9 & rest
          & l0 & l1 & ls & r0 & r1 & rs & _ & _ & _ & _ & _ & _ & _ & _
          & _ & _ & He).
    by rewrite He.
Qed.

(** X2.  [parseIP] returns a record exactly when the line has at least ten
    fields, its second and third fields each have a colon, and the state,
    the two addresses, the two ports, the user id and the inode convert;
    the ports are the pieces between the first and the second colon, and
    what follows a second colon is not read. *)
Theorem parseIP_returns_iff (filename line protocol : string)
    (e : NetworkEntry) :
  parseIP filename line protocol = Returns (e, None)
  ↔ ∃ f0 f1 f2 f3 f4 f5 f6 f7 f8 f9 rest l0 l1 ls r0 r1 rs,
      strings.Fields line
        = f0 :: f1 :: f2 :: f3 :: f4 :: f5 :: f6 :: f7 :: f8 :: f9 :: rest
      ∧ strings.ContainsByte f1 ":" = true
      ∧ strings.ContainsByte f2 ":" = true
      ∧ strings.Split f1 ":" = l0 :: l1 :: ls
      ∧ strings.Split f2 ":" = r0 :: r1 :: rs
      ∧ hexToInt f3 = Some (State e)
      ∧ hexToIP l0 = Some (SrcIP e) ∧ hexToInt l1 = Some (SrcPort e)
      ∧ hexToIP r0 = Some (DstIP e) ∧ hexToInt r1 = Some (DstPort e)
      ∧ decToInt f7 = Some (UserId e) ∧ decToInt f9 = Some (INode e)
      ∧ e = {| Proto := protocol; Type_ := 0; TypeString := ""; Groups := "";
               Path := ""; State := State e;
               StateString := label sockStates (State e);
               SrcIP := SrcIP e; SrcPort := SrcPort e;
               DstIP := DstIP e; DstPort := DstPort e;
               UserId := UserId e; INode := INode e |}.
Proof.
  split.
  - intros (f0 & f1 & f2 & f3 & f4 & f5 & f6 & f7 & f8 & f9 & rest
            & l0 & l1 & ls & r0 & r1 & rs
            & Hf & Hl & Hr & Hrest)%parseIP_returns_inv.
    exists f0, f1, f2, f3, f4, f5, f6, f7, f8, f9, rest, l0, l1, ls, r0, r1, rs.
    split; [done|]. split; [by eapply Split_two_pieces|].
    split; [by eapply Split_two_pieces|]. done.
  - intros (f0 & f1 & f2 & f3 & f4 & f5 & f6 & f7 & f8 & f9 & rest
            & l0 & l1 & ls & r0 & r1 & rs
            & Hf & _ & _ & Hl & Hr & Hst & Hsip & Hsp & Hdip & Hdp & Huid
            & Hino & He).
    rewrite He at 1. by eapply parseIP_decodes.
Qed.

(** X3.  What a decoded record holds: its protocol is the one asked for;
    a unix record has no address, port, groups or user id and its two
    labels are those of its type and state; a netlink record has only its
    groups and inode; a record of any other protocol has no type, groups
    or path and its state label is that of its state. *)
Theorem decoded_record_shape (filename line proto : string) (e : NetworkEntry) :
  parseLine filename line proto = Returns (e, None) →
  Proto e = proto
  ∧ (proto = "unix" →
     e = {| Proto := proto; Type_ := Type_ e;
            TypeString := label sockTypes (Type_ e); Groups := "";
            Path := Path e; State := State e;
            StateString := label sockStates (State e);
            SrcIP := []; SrcPort := 0; DstIP := []; DstPort := 0;
            UserId := 0; INode := INode e |})
  ∧ (proto = "netlink" →
     e = {| Proto := proto; Type_ := 0; TypeString := "";
            Groups := Groups e; Path := ""; State := 0; StateString := "";
            SrcIP := []; SrcPort := 0; DstIP := []; DstPort := 0;
            UserId := 0; INode := INode e |})
  ∧ (proto ≠ "unix" → proto ≠ "netlink" →
     e = {| Proto := proto; Type_ := 0; TypeString := ""; Groups := "";
            Path := ""; State := State e;
            StateString := label sockStates (State e);
            SrcIP := SrcIP e; SrcPort := SrcPort e;
            DstIP := DstIP e; DstPort := DstPort e;
            UserId := UserId e; INode := INode e |}).
Proof.
  unfold parseLine. intros Hp.
  destruct (decide (proto = "unix")) as [Hu|Hu];
    [|destruct (decide (proto = "netlink")) as [Hn|Hn]].
  - revert Hp. unfold parseUnix. simpl. case_decide; [done|].
    repeat (match goal with
            | |- context [decide ?P] => destruct (decide P); simpl
            | |- context [index ?l ?i] => destruct (index l i); simpl
            | |- context [call ?n ?f ?a] => destruct (call n f a); simpl
            end; try done);
      intros [= <-]; simpl; subst proto; repeat split; done.
  - revert Hp. unfold parseNetlink. simpl. case_decide; [done|].
    repeat (match goal with
            | |- context [index ?l ?i] => destruct (index l i); simpl
            | |- context [call ?n ?f ?a] => destruct (call n f a); simpl
            end; try done).
    intros [= <-]. simpl. subst proto. repeat split; done.
  - apply parseIP_returns_inv in Hp
      as (f0 & f1 & f2 & f3 & f4 & f5 & f6 & f7 & f8 & f9 & rest
          & l0 & l1 & ls & r0 & r1 & rs & _ & _ & _ & _ & _ & _ & _ & _
          & _ & _ & He).
    rewrite He. simpl. repeat split; done.
Qed.

(** X4.  A line with enough fields is decoded from its fields alone: the
    blanks around and between its columns and the name of the file change
    nothing, so the trimming of the scanner does not change what a line
    decodes to. *)
Theorem decode_from_fields (file1 file2 line1 line2 proto : string) :
  strings.Fields line1 = strings.Fields line2 →
  (minFields proto ≤ length (strings.Fields line1))%nat →
  parseLine file1 line1 proto = parseLine file2 line2 proto
  ∧ parseLine file1 (str.Trim line1) proto = parseLine file1 line1 proto.
Proof.
  assert (∀ f1 f2 l1 l2, strings.Fields l1 = strings.Fields l2 →
            (minFields proto ≤ length (strings.Fields l1))%nat →
            parseLine f1 l1 proto = parseLine f2 l2 proto) as Hgen.
  { intros f1 f2 l1 l2 Hf Hn. unfold parseLine, minFields in *.
    destruct (decide (proto = "unix"));
      [|destruct (decide (proto = "netlink"))].
    - unfold parseUnix. simpl. rewrite <- Hf.
      destruct (decide (length (strings.Fields l1) < 7)%nat); [lia|done].
    - unfold parseNetlink. simpl. rewrite <- Hf.
      destruct (decide (length (strings.Fields l1) < 10)%nat); [lia|done].
    - unfold parseIP. rewrite <- Hf.
      destruct (decide (length (strings.Fields l1) < 10)%nat); [lia|done]. }
  intros Hf Hn. split; [by apply Hgen|].
  apply Hgen; rewrite Fields_Trim; done.
Qed.

End DecoderOutcomes.

(** * Further properties of the table scanner *)

Section ScannerOutcomes.
Context `{HostEnv}.

(** Past the header, a loop that returns has decoded every line. *)
Lemma scanLoop_returns (filename proto : string) (lineno : nat)
    (ls : list string) (entries out : list NetworkEntry) :
  scanLoop filename proto (S lineno) ls entries = Returns out →
  ∃ es, Forall2 (decodesTo filename proto) ls es ∧ out = entries ++ es.
Proof.
  revert lineno entries. induction ls as [|text ls IH]; intros lineno entries.
  - simpl. intros [= <-]. exists []. by rewrite app_nil_r.
  - simpl.
    destruct (parseLine filename (str.Trim text) proto) as [[e [err|]]|p] eqn:Hp;
      simpl; try done.
    intros Hout. destruct (IH _ _ Hout) as (es & Hes & ->).
    exists (e :: es). split; [by constructor|]. by rewrite <- app_assoc.
Qed.


(** A scan that returns records has opened the table and decoded every
    line after the first. *)
Lemma scan_returns_inv (fs : FS) (proto : string) (es : list NetworkEntry) :
  parseNetworkForProtocol fs proto = Returns (es, None) →
  ∃ ls, fs (ProcFS +:+ "/net/" +:+ proto) = Lines ls
        ∧ Forall2 (decodesTo (ProcFS +:+ "/net/" +:+ proto) proto) (tail ls) es.
Proof.
  unfold parseNetworkForProtocol.
  destruct (fs (ProcFS +:+ "/net/" +:+ proto)) as [err|ls]; [done|].
  intros Hs. exists ls. split; [done|].
  destruct ls as [|header data]; simpl in *.
  - injection Hs as <-. constructor.
  - destruct (scanLoop _ proto 1 data []) as [out|p] eqn:Hl;
      simpl in Hs; [|done].
    injection Hs as <-.
    by destruct (scanLoop_returns _ _ _ _ _ _ Hl) as (es' & Hes & ->).
Qed.


(** X6.  The only error that a scan returns is that of the open, and it
    comes with no record; a line that does not decode is never returned as
    an error. *)
Theorem scan_error_iff (fs : FS) (proto : string) (es : list NetworkEntry)
    (err : error) :
  parseNetworkForProtocol fs proto = Returns (es, Some err)
  ↔ es = [] ∧ fs (ProcFS +:+ "/net/" +:+ proto) = OpenError err.
Proof.
  unfold parseNetworkForProtocol. split.
  - destruct (fs (ProcFS +:+ "/net/" +:+ proto)) as [err'|ls].
    + by intros [= <- <-].
    + by destruct (scanLoop _ proto 0 ls []).
  - by intros [-> ->].
Qed.



End ScannerOutcomes.

(** * Further properties of the inode index *)

Lemma addEntries_dom (m : NetworkINodes) (es : list NetworkEntry) :
  dom (addEntries m es) = dom m ∪ list_to_set (INode <$> es).
Proof.
  revert m. induction es as [|e es IH]; intros m.
  - simpl. by rewrite (right_id_L ∅ (∪)).
  - unfold addEntries in *. simpl. rewrite IH, dom_insert_L.
    by rewrite (comm_L (∪) {[INode e]} (dom m)), <- (assoc_L (∪)).
Qed.

(** A value of the index is one of the entries added, under its inode. *)
Lemma addEntries_value (es : list NetworkEntry) (k : Z) (e : NetworkEntry) :
  addEntries ∅ es !! k = Some e → e ∈ es ∧ INode e = k.
Proof.
  rewrite addEntries_lookup, lookup_empty.
  destruct (last (withINode k es)) as [e'|] eqn:Hlast; [|done].
  intros [= <-]. apply last_Some_elem_of in Hlast.
  unfold withINode in Hlast. by apply list_elem_of_filter in Hlast as [? ?].
Qed.

(** The elements of a list are at least as many as the distinct ones, and
    as many exactly when none is repeated. *)
Lemma size_list_to_set_le (l : list Z) :
  (size (list_to_set l : gset Z) ≤ length l)%nat
  ∧ (size (list_to_set l : gset Z) = length l ↔ NoDup l).
Proof.
  induction l as [|x l [IHle IHeq]].
  - change (list_to_set [] : gset Z) with (∅ : gset Z). rewrite size_empty.
    split; [done|]. split; [constructor|done].
  - simpl. destruct (decide (x ∈ l)) as [Hin|Hin].
    + assert ({[x]} ∪ list_to_set l = (list_to_set l : gset Z)) as ->.
      { apply subseteq_union_1_L, singleton_subseteq_l.
        by apply elem_of_list_to_set. }
      split; [lia|]. split; [lia|].
      intros [Hx _]%NoDup_cons. done.
    + rewrite size_union, size_singleton.
      2:{ apply disjoint_singleton_l. by rewrite elem_of_list_to_set. }
      split; [lia|]. split.
      * intros Hs. constructor; [done|]. apply IHeq. lia.
      * intros [_ Hnd]%NoDup_cons. apply IHeq in Hnd. lia.
Qed.

Lemma elem_of_concat {A : Type} (ls : list (list A)) (x : A) :
  x ∈ concat ls → ∃ l, l ∈ ls ∧ x ∈ l.
Proof.
  induction ls as [|l ls IH]; simpl.
  - by intros ?%elem_of_nil.
  - intros [Hx|Hx]%elem_of_app.
    + exists l. split; [by left|done].
    + destruct (IH Hx) as (l' & Hl' & Hx'). exists l'. split; [by right|done].
Qed.

Section IndexOutcomes.
Context `{HostEnv}.

(** A loop that returns a map has scanned every family that remained. *)
Lemma indexLoop_returns_inv (fs : FS) (protos : list string)
    (byInode m : NetworkINodes) (eo : option error) :
  indexLoop fs protos byInode = Returns (Some m, eo) →
  eo = None
  ∧ ∃ scans,
      Forall2 (λ p es, parseNetworkForProtocol fs p = Returns (es, None))
        protos scans
      ∧ m = addEntries byInode (concat scans).
Proof.
  revert byInode. induction protos as [|p protos IH]; intros byInode; simpl.
  - intros [= <- <-]. split; [done|]. exists []. by split; [constructor|].
  - destruct (parseNetworkForProtocol fs p) as [[es [err|]]|q] eqn:Hp;
      simpl; try done.
    intros Hm. destruct (IH _ Hm) as (-> & scans & Hscans & ->).
    split; [done|]. exists (es :: scans).
    split; [by constructor|]. simpl. by rewrite addEntries_app.
Qed.

(** A loop that returns no map returns the error of a family that did not
    open. *)
Lemma indexLoop_error_inv (fs : FS) (protos : list string)
    (byInode : NetworkINodes) (eo : option error) :
  indexLoop fs protos byInode = Returns (None, eo) →
  ∃ p err, p ∈ protos ∧ eo = Some err
           ∧ fs (ProcFS +:+ "/net/" +:+ p) = OpenError err.
Proof.
  revert byInode. induction protos as [|p protos IH]; intros byInode; simpl.
  - done.
  - destruct (parseNetworkForProtocol fs p) as [[es [err|]]|q] eqn:Hp;
      simpl; try done.
    + intros [= <-]. exists p, err. split; [by left|]. split; [done|].
      unfold parseNetworkForProtocol in Hp.
      destruct (fs (ProcFS +:+ "/net/" +:+ p)) as [err'|ls].
      * by injection Hp as _ ->.
      * by destruct (scanLoop _ p 0 ls []).
    + intros Hm. destruct (IH _ Hm) as (p' & err & Hin & -> & Hfs).
      exists p', err. split; [by right|done].
Qed.

(** X9.  In the index that is returned, every key is the inode of the
    record it maps to, and every record carries one of the six protocols. *)
Theorem index_keys (fs : FS) (m : NetworkINodes) (eo : option error)
    (k : Z) (e : NetworkEntry) :
  parseNetworkInodes fs = Returns (Some m, eo) →
  m !! k = Some e →
  INode e = k ∧ Proto e ∈ protocols.
Proof.
  intros (-> & scans & Hscans & ->)%indexLoop_returns_inv Hk.
  apply addEntries_value in Hk as [Hin Hk]. split; [done|].
  apply elem_of_concat in Hin as (es & Hes & Hin).
  apply list_elem_of_lookup in Hes as [i Hi].
  destruct (Forall2_lookup_r _ _ _ _ _ Hscans Hi) as (p & Hp & Hscan).
  apply scan_returns_inv in Hscan as (ls & _ & Hdec).
  apply list_elem_of_lookup_2 in Hp.
  assert (Proto e = p) as ->; [|done].
  clear -Hdec Hin. induction Hdec as [|text e' data es He _ IH].
  - by apply elem_of_nil in Hin.
  - apply elem_of_cons in Hin as [->|Hin]; [|by apply IH].
    by apply parseLine_Proto in He.
Qed.

(** X10.  When the six tables scan, the keys of the index are the inodes
    of all the records; the index has at most as many keys as there are
    records, and as many exactly when no two records, of one table or of
    two, have the same inode. *)
Theorem index_size_records (fs : FS) (scans : list (list NetworkEntry)) :
  Forall2 (λ p es, parseNetworkForProtocol fs p = Returns (es, None))
    protocols scans →
  ∃ m : NetworkINodes,
    parseNetworkInodes fs = Returns (Some m, None)
    ∧ dom m = list_to_set (INode <$> concat scans)
    ∧ (size m ≤ length (concat scans))%nat
    ∧ (size m = length (concat scans) ↔ NoDup (INode <$> concat scans)).
Proof.
  intros Hscans. exists (addEntries ∅ (concat scans)).
  assert (dom (addEntries ∅ (concat scans))
          = list_to_set (INode <$> concat scans)) as Hdom.
  { by rewrite addEntries_dom, dom_empty_L, (left_id_L ∅ (∪)). }
  split.
  - unfold parseNetworkInodes. rewrite <- (app_nil_r protocols).
    by rewrite (indexLoop_scanned fs protocols [] scans ∅ Hscans).
  - split; [done|].
    rewrite <- size_dom, Hdom.
    destruct (size_list_to_set_le (INode <$> concat scans)) as [Hle Heq].
    by rewrite length_fmap in Hle, Heq.
Qed.

(** X11.  What the build returns is a map or an error, never both and
    never neither; and an error that it returns is the error of opening one
    of the six tables under the root. *)
Theorem index_map_or_error (fs : FS) (mo : option NetworkINodes)
    (eo : option error) :
  parseNetworkInodes fs = Returns (mo, eo) →
  (is_Some mo ↔ eo = None)
  ∧ ∀ err, eo = Some err →
      ∃ p, p ∈ protocols ∧ fs (ProcFS +:+ "/net/" +:+ p) = OpenError err.
Proof.
  unfold parseNetworkInodes. destruct mo as [m|].
  - intros (-> & _)%indexLoop_returns_inv. split; [|done].
    split; [done|by eauto].
  - intros (p & err & Hin & -> & Hfs)%indexLoop_error_inv. split.
    + split; [by intros [? ?]|done].
    + intros err' [= <-]. by eauto.
Qed.

End IndexOutcomes.

(** * Properties of the rendering *)

Section RenderingProperties.
Context `{HostEnv}.
Variable ipString : IP → string.
Variable statMode : string → option string.

(** A record that [parseUnix] returns: its protocol, and its path, which
    is the eighth field when there is one. *)
Lemma parseUnix_returns_inv (filename line protocol : string)
    (e : NetworkEntry) :
  parseUnix filename line protocol = Returns (e, None) →
  (7 ≤ length (strings.Fields line))%nat
  ∧ Proto e = protocol
  ∧ (length (strings.Fields line) = 7%nat → Path e = "")
  ∧ (∀ f7, strings.Fields line !! 7%nat = Some f7 → Path e = f7).
Proof.
  unfold parseUnix. simpl. case_decide as Hn; [done|].
  destruct (length_ge_7 (strings.Fields line))
    as (a0 & a1 & a2 & a3 & a4 & a5 & a6 & rest & Hf); [lia|].
  rewrite Hf. simpl. unfold call.
  destruct (hexToInt a4); simpl; [|done].
  destruct (hexToInt a5); simpl; [|done].
  destruct rest as [|a7 rest]; simpl.
  - destruct (decToInt a6); simpl; [|done].
    intros [= <-]. simpl. repeat split; try done; lia.
  - destruct (decToInt a6); simpl; [|done].
    intros [= <-]. simpl. repeat split; try done; try lia.
    by intros f7 [= <-].
Qed.

(** X12.  How a decoded unix line is shown: by the label of its type and
    its inode when the line has no path column, and by the label of its
    type and its path, the eighth field, when it has one; the inode is then
    not shown. *)
Theorem unix_line_rendering (filename line : string) (e : NetworkEntry) :
  parseUnix filename line "unix" = Returns (e, None) →
  (length (strings.Fields line) = 7%nat →
   NetworkEntry_String ipString e
   = "(unix) " +:+ TypeString e +:+ " inode=" +:+ fmt_d (INode e))
  ∧ (∀ f7, strings.Fields line !! 7%nat = Some f7 →
       NetworkEntry_String ipString e
       = "(unix) " +:+ TypeString e +:+ " path='" +:+ f7 +:+ "'").
Proof.
  intros (Hlen & Hproto & Hseven & Hpath)%parseUnix_returns_inv.
  unfold NetworkEntry_String. rewrite Hproto. simpl. split.
  - intros H7. by rewrite (Hseven H7).
  - intros f7 Hf7. rewrite (Hpath _ Hf7).
    rewrite decide_False; [done|].
    apply (Fields_nonempty line). by eapply list_elem_of_lookup_2.
Qed.

(** X13.  The information shown for a decoded record: the label of its
    state for a record of the IP tables, nothing for a netlink record, and
    nothing for a unix record without a path, whatever the file system
    holds. *)
Theorem decoded_InfoString (filename line proto : string) (e : NetworkEntry) :
  parseLine filename line proto = Returns (e, None) →
  (proto ≠ "unix" → proto ≠ "netlink" →
   InfoString statMode e = label sockStates (State e))
  ∧ (proto = "netlink" → InfoString statMode e = "")
  ∧ (proto = "unix" → length (strings.Fields line) = 7%nat →
     InfoString statMode e = "").
Proof.
  intros Hp. pose proof (parseLine_Proto _ _ _ _ Hp) as Hproto.
  unfold InfoString. rewrite Hproto. unfold parseLine in Hp.
  split; [|split].
  - intros Hu Hn. rewrite !decide_False in * by done.
    apply parseIP_returns_inv in Hp
      as (f0 & f1 & f2 & f3 & f4 & f5 & f6 & f7 & f8 & f9 & rest
          & l0 & l1 & ls & r0 & r1 & rs & _ & _ & _ & _ & _ & _ & _ & _
          & _ & _ & He).
    by rewrite He.
  - intros ->. simpl in *. revert Hp.
    unfold parseNetlink. simpl. case_decide; [done|].
    repeat (match goal with
            | |- context [index ?l ?i] => destruct (index l i); simpl
            | |- context [call ?n ?f ?a] => destruct (call n f a); simpl
            end; try done).
    by intros [= <-].
  - intros -> H7. simpl in *.
    apply parseUnix_returns_inv in Hp as (_ & _ & Hseven & _).
    by rewrite (Hseven H7).
Qed.

End RenderingProperties.

(** * Further properties of the search of the target *)

Lemma matching_elem_of (targetName : string) (procs : list Proc) (proc : Proc) :
  proc ∈ matching targetName procs
  ↔ (Comm proc ≠ "" ∧ strings.Index (Comm proc) targetName ≠ -1) ∧ proc ∈ procs.
Proof. unfold matching. by rewrite list_elem_of_filter. Qed.

(** The one key of the map of the matches is the pid of a match. *)
Lemma selected_is_match (targetName : string) (procs : list Proc) (pid : Z) :
  dom (addProcs ∅ (matching targetName procs)) = {[pid]} →
  ∃ proc, proc ∈ procs ∧ PID proc = pid ∧ Comm proc ≠ ""
          ∧ strings.Index (Comm proc) targetName ≠ -1.
Proof.
  intros Hdom.
  assert (pid ∈ dom (addProcs ∅ (matching targetName procs))) as Hin.
  { rewrite Hdom. by apply elem_of_singleton. }
  apply elem_of_dom in Hin as [proc Hproc].
  apply addProcs_lookup in Hproc as [Hin Hpid].
  apply matching_elem_of in Hin as [[Hc Hi] Hin].
  by exists proc.
Qed.

(** A search that returns has taken the pid of the one key of the map. *)
Lemma searchTarget_returns_inv (targetName : string) (procs : list Proc)
    (getpid targetPID : Z) (st : SearchState) :
  targetName ≠ "" →
  searchTarget targetName (inr procs) getpid targetPID = Returns st →
  ended st = Return →
  stdout st = []
  ∧ dom (addProcs ∅ (matching targetName procs)) = {[TargetPID st]}.
Proof.
  intros Hname. unfold searchTarget. rewrite decide_True by done.
  rewrite collectMatches_matching. cbv beta iota zeta.
  set (m := addProcs ∅ (matching targetName procs)).
  destruct (decide (size m = 0%nat)) as [Hz|Hz]; [by intros [= <-]|].
  destruct (decide (1 < size m)%nat) as [Hm|Hm]; [by intros [= <-]|].
  assert (size m = 1%nat) as Hone by lia.
  assert (length (map_to_list m) = 1%nat) as Hlen
    by (by rewrite length_map_to_list).
  destruct (map_to_list m) as [|[pid proc] [|]] eqn:Hl; try discriminate Hlen.
  intros [= <-] _. simpl. split; [done|].
  assert (pid ∈ dom m) as Hin.
  { apply elem_of_dom. exists proc. apply elem_of_map_to_list.
    rewrite Hl. by left. }
  rewrite <- size_dom in Hone.
  apply size_1_elem_of in Hone as [x Hx].
  apply leibniz_equiv in Hx. rewrite Hx in Hin |- *.
  apply elem_of_singleton in Hin. by subst.
Qed.

(** X14.  When a search by name returns to [main], nothing was printed,
    the target is the pid of a process of the table whose name is not empty
    and contains the string, and every process that matches has that pid. *)
Theorem searchTarget_selects_match (targetName : string) (procs : list Proc)
    (getpid targetPID : Z) (st : SearchState) :
  targetName ≠ "" →
  searchTarget targetName (inr procs) getpid targetPID = Returns st →
  ended st = Return →
  stdout st = []
  ∧ (∃ proc, proc ∈ procs ∧ PID proc = TargetPID st ∧ Comm proc ≠ ""
             ∧ strings.Index (Comm proc) targetName ≠ -1)
  ∧ (∀ proc, proc ∈ matching targetName procs → PID proc = TargetPID st).
Proof.
  intros Hname Hrun Hend.
  destruct (searchTarget_returns_inv _ _ _ _ _ Hname Hrun Hend) as [Hout Hdom].
  split; [done|]. split; [by eapply selected_is_match|].
  intros proc Hin.
  assert (PID proc ∈ dom (addProcs ∅ (matching targetName procs))) as Hd.
  { rewrite addProcs_dom. apply elem_of_union_r, elem_of_list_to_set.
    by apply list_elem_of_fmap_2. }
  rewrite Hdom in Hd. by apply elem_of_singleton in Hd.
Qed.

(** X15.  When [searchTarget] returns to [main], the target is a positive
    pid, provided that the pid of the program is positive and, when a name
    is searched, that the pids of the process table are. *)
Theorem searchTarget_target_positive (targetName : string)
    (allProcs : error + list Proc) (getpid targetPID : Z) (st : SearchState) :
  0 < getpid →
  (∀ procs, allProcs = inr procs → Forall (λ proc, 0 < PID proc) procs) →
  searchTarget targetName allProcs getpid targetPID = Returns st →
  ended st = Return →
  0 < TargetPID st.
Proof.
  intros Hpid Hprocs Hrun Hend.
  destruct (decide (targetName = "")) as [->|Hname].
  - unfold searchTarget in Hrun. simpl in Hrun. injection Hrun as <-.
    simpl. case_decide; lia.
  - destruct allProcs as [err|procs].
    { unfold searchTarget in Hrun. by rewrite decide_True in Hrun. }
    destruct (searchTarget_returns_inv _ _ _ _ _ Hname Hrun Hend) as [_ Hdom].
    destruct (selected_is_match _ _ _ Hdom) as (proc & Hin & <- & _).
    specialize (Hprocs procs eq_refl).
    by eapply (proj1 (Forall_forall _ _) Hprocs).
Qed.

(** * Properties of [main] *)

Lemma countIf_app {A : Type} (f : A → bool) (l1 l2 : list A) :
  countIf f (l1 ++ l2) = (countIf f l1 + countIf f l2)%nat.
Proof. induction l1 as [|x l1 IH]; simpl; [done|]. rewrite IH. lia. Qed.

(** In the range where the product does not overflow, the duration is the
    product. *)
Lemma tickerDuration_exact (period : Z) :
  -9223372036854 ≤ period ≤ 9223372036854 →
  tickerDuration period = 1000000 * period.
Proof.
  intros Hp. unfold tickerDuration, wrap64.
  rewrite Z.mod_small; lia.
Qed.

(** What a pass does at an input that does not stop the loop. *)
Lemma onInput_continue (i : input) (paused : bool) :
  stopsLoop i = false →
  ∃ calls,
    onInput i paused
    = Continue (xorb paused (hasID ["<Space>"; "p"] i)) calls
    ∧ Forall (λ a, isLoopAction a = true) calls
    ∧ countIf isUpdateTabs calls
      = ((if isTick i then 1 else 0) + (if hasID ["f"] i then 1 else 0))%nat
    ∧ countIf isUpdateUI calls = (1 + (if hasID ["f"] i then 1 else 0))%nat
    ∧ countIf isTabEvent calls = (if isTick i then 0 else 1)%nat.
Proof.
  destruct i as [|[id payload]].
  { intros _. exists [UpdateTabs; UpdateUI]. simpl.
    rewrite xorb_false_r. repeat split; repeat constructor. }
  unfold stopsLoop, onInput, onEventID, hasID. simpl.
  destruct (decide (id ∈ ["q"; "<C-c>"; "<Resize>"; "<Left>"; "<Right>";
                          "<Space>"; "p"; "f"])) as [Hin|Hout].
  - repeat (apply elem_of_cons in Hin as [->|Hin];
            [simpl; try done; try (destruct payload; [|done]); intros _;
             eexists; rewrite ?xorb_false_r, ?xorb_true_r;
             (split; [reflexivity|]); repeat split; repeat constructor|]).
    by apply elem_of_nil in Hin.
  - assert (∀ s, s ∈ ["q"; "<C-c>"; "<Resize>"; "<Left>"; "<Right>";
                      "<Space>"; "p"; "f"] → id ≠ s) as Hne.
    { by intros s Hs ->. }
    assert (id ≠ "q" ∧ id ≠ "<C-c>" ∧ id ≠ "<Resize>" ∧ id ≠ "<Left>"
            ∧ id ≠ "<Right>" ∧ id ≠ "<Space>" ∧ id ≠ "p" ∧ id ≠ "f")
      as (H1 & H2 & H3 & H4 & H5 & H6 & H7 & H8).
    { repeat split; apply Hne; repeat constructor. }
    destruct (decide (id = "q" ∨ id = "<C-c>")); [tauto|].
    destruct (decide (id = "<Resize>")); [done|].
    destruct (decide (id = "<Left>")); [done|].
    destruct (decide (id = "<Right>")); [done|].
    destruct (decide (id = "<Space>" ∨ id = "p")); [tauto|].
    destruct (decide (id = "f")); [done|].
    rewrite (bool_decide_false (id ∈ ["<Space>"; "p"])).
    2:{ intros [->|[->|[]%elem_of_nil]%elem_of_cons]%elem_of_cons; done. }
    rewrite (bool_decide_false (id ∈ ["f"])).
    2:{ by intros ->%list_elem_of_singleton. }
    intros _. eexists. rewrite xorb_false_r.
    split; [reflexivity|]. repeat split; repeat constructor.
Qed.

(** An input that stops the loop is a quit key, or a resize event whose
    payload is not a resize; [paused] has no part in it. *)
Lemma onInput_stop (i : input) :
  stopsLoop i = true →
  ∃ e, i = UI e
       ∧ (((ID e = "q" ∨ ID e = "<C-c>") ∧ ∀ paused, onInput i paused = StopReturn)
          ∨ (ID e = "<Resize>" ∧ EventPayload e = OtherPayload
             ∧ ∀ paused, onInput i paused = StopPanic (CrashAssertion e))).
Proof.
  destruct i as [|e]; [done|]. unfold stopsLoop, onInput, onEventID.
  intros Hstop. exists e. split; [done|].
  destruct (decide (ID e = "q" ∨ ID e = "<C-c>")) as [Hq|Hq]; [by left|].
  destruct (decide (ID e = "<Resize>")) as [Hr|Hr].
  { destruct (EventPayload e) eqn:Hp; [done|]. by right. }
  destruct (decide (ID e = "<Left>")); [done|].
  destruct (decide (ID e = "<Right>")); [done|].
  destruct (decide (ID e = "<Space>" ∨ ID e = "p")); [done|].
  by destruct (decide (ID e = "f")).
Qed.

(** The calls of the loop are added at the end of the trace, and how the
    loop ends tells what it received. *)
Lemma eventLoop_inv (inputs : list input) (paused paused' : bool)
    (trace trace' : list action) (end_ : mainEnd) :
  eventLoop inputs paused trace = (end_, paused', trace') →
  (∃ calls, trace' = trace ++ calls
            ∧ Forall (λ a, isLoopAction a = true) calls)
  ∧ (end_ = Waiting
     ∨ (end_ = Returned
        ∧ ∃ e, UI e ∈ inputs ∧ (ID e = "q" ∨ ID e = "<C-c>"))
     ∨ (∃ e, end_ = Crashed (CrashAssertion e) ∧ UI e ∈ inputs
             ∧ ID e = "<Resize>" ∧ EventPayload e = OtherPayload)).
Proof.
  revert paused trace. induction inputs as [|i inputs IH]; intros paused trace.
  - simpl. intros [= <- <- <-]. split; [|by left].
    exists []. by rewrite app_nil_r.
  - simpl. destruct (stopsLoop i) eqn:Hstop.
    + destruct (onInput_stop i Hstop) as (e & -> & [[Hq Hon]|(Hr & Hp & Hon)]);
        rewrite Hon; intros [= <- <- <-].
      * split; [exists []; by rewrite app_nil_r|].
        right; left. split; [done|]. exists e. split; [by left|done].
      * split; [exists []; by rewrite app_nil_r|].
        right; right. exists e. split; [done|]. split; [by left|done].
    + destruct (onInput_continue i paused Hstop) as (calls & -> & Hcalls & _).
      intros Hloop. destruct (IH _ _ Hloop) as [(calls' & -> & Hcalls') Hend].
      split.
      * exists (calls ++ calls'). split; [by rewrite app_assoc|].
        by apply Forall_app.
      * destruct Hend as [?|[[? (e & He & Hq)]|(e & ? & He & Hr)]].
        -- by left.
        -- right; left. split; [done|]. exists e. split; [by right|done].
        -- right; right. exists e. split; [done|]. split; [by right|done].
Qed.

(** X16.  While no quit key and no malformed resize event comes, the loop
    goes on.  It calls [updateTabs] once for each tick and once for each
    [f] key, whether [paused] is set or not; it calls [updateUI] once for
    each input and once more for each [f] key; it hands every event, and
    no tick, to the active tab; and [paused] is flipped once for each
    space or [p] key. *)
Theorem eventLoop_counts (inputs : list input) (paused : bool)
    (trace : list action) :
  Forall (λ i, stopsLoop i = false) inputs →
  ∃ calls,
    eventLoop inputs paused trace
    = (Waiting,
       xorb paused (Nat.odd (countIf (hasID ["<Space>"; "p"]) inputs)),
       trace ++ calls)
    ∧ countIf isUpdateTabs calls
      = (countIf isTick inputs + countIf (hasID ["f"]) inputs)%nat
    ∧ countIf isUpdateUI calls
      = (length inputs + countIf (hasID ["f"]) inputs)%nat
    ∧ countIf isTabEvent calls = (length inputs - countIf isTick inputs)%nat.
Proof.
  intros Hin. revert paused trace.
  induction Hin as [|i inputs Hi _ IH]; intros paused trace.
  - exists []. simpl. by rewrite app_nil_r, xorb_false_r.
  - simpl.
    destruct (onInput_continue i paused Hi)
      as (calls & -> & _ & Htabs & Hui & Hev).
    destruct (IH (xorb paused (hasID ["<Space>"; "p"] i)) (trace ++ calls))
      as (calls' & -> & Htabs' & Hui' & Hev').
    exists (calls ++ calls'). rewrite !countIf_app, Htabs, Hui, Hev, Htabs', Hui', Hev'.
    split; [|split; [|split]].
    + rewrite app_assoc. f_equal. f_equal.
      destruct (hasID ["<Space>"; "p"] i); simpl.
      * rewrite Nat.odd_succ, <- Nat.negb_odd.
        by destruct paused, (Nat.odd _).
      * by rewrite xorb_false_r.
    + destruct (isTick i), (hasID ["f"] i); lia.
    + destruct (hasID ["f"] i); lia.
    + assert (countIf isTick inputs ≤ length inputs)%nat.
      { clear. induction inputs as [|x l IHl]; simpl; [lia|].
        destruct (isTick x); lia. }
      destruct (isTick i); lia.
Qed.

Lemma eventLoop_counts_witness :
  ∃ calls,
    eventLoop [Tick; keyEvent "p"; Tick; keyEvent "f"; keyEvent "<Left>"] false []
    = (Waiting, true, calls)
    ∧ countIf isUpdateTabs calls = 3%nat
    ∧ countIf isUpdateUI calls = 6%nat
    ∧ countIf isTabEvent calls = 3%nat.
Proof.
  destruct (eventLoop_counts
              [Tick; keyEvent "p"; Tick; keyEvent "f"; keyEvent "<Left>"]
              false [])
    as (calls & Hrun & Htabs & Hui & Hev); [repeat constructor|].
  exists calls. split; [exact Hrun|]. split; [exact Htabs|].
  split; [exact Hui|exact Hev].
Defined.



(** What [main] does from [setupUI] on, by the way it ends. *)
Lemma runUI_inv (fl : Flags) (w : World) (pid : Z) (profiling : bool)
    (paused paused' : bool) (inputs : list input) (trace trace' : list action)
    (end_ : mainEnd) :
  runUI fl w pid profiling paused inputs trace = (end_, paused', trace') →
  ∃ calls,
    trace' = trace ++ calls
    ∧ Forall (λ a, isSessionAction a = false) calls
    ∧ match end_ with
      | Exited code =>
          code = 1 ∧ paused' = paused ∧ ∃ msg, calls = [SetupUI pid; Print msg]
      | Crashed (CrashTicker d) =>
          d = tickerDuration (flag_period fl) ∧ d ≤ 0 ∧ paused' = paused
          ∧ calls = [SetupUI pid; UpdateTabs; UpdateTabs; UpdateUI; PollEvents]
                    ++ deferred profiling
      | Crashed (CrashAssertion e) =>
          0 < tickerDuration (flag_period fl)
          ∧ ∃ t, calls = t ++ deferred profiling
      | Crashed (CrashPanic _) => False
      | Returned =>
          0 < tickerDuration (flag_period fl)
          ∧ (∃ e, UI e ∈ inputs ∧ (ID e = "q" ∨ ID e = "<C-c>"))
          ∧ ∃ t, calls = t ++ deferred profiling
      | Waiting => 0 < tickerDuration (flag_period fl)
      end.
Proof.
  unfold runUI. destruct (world_setup_ui w pid) as [err|].
  { intros [= <- <- <-]. eexists. split; [done|].
    split; [by repeat constructor|]. by eauto. }
  destruct (decide (tickerDuration (flag_period fl) ≤ 0)) as [Hd|Hd].
  { intros [= <- <- <-]. eexists. split; [by rewrite <- app_assoc|].
    split; [|done]. destruct profiling; by repeat constructor. }
  destruct (eventLoop inputs paused _) as [[e p] t] eqn:Hloop.
  apply eventLoop_inv in Hloop as [(calls & -> & Hcalls) Hend].
  assert (Forall (λ a, isSessionAction a = false) calls) as Hsess.
  { eapply Forall_impl; [exact Hcalls|]. by intros []. }
  assert (Forall (λ a, isSessionAction a = false) (deferred profiling)) as Hdef.
  { destruct profiling; by repeat constructor. }
  destruct Hend as [->|[[-> Hq]|(ev & -> & _)]]; intros [= <- <- <-].
  - exists ([SetupUI pid; UpdateTabs; UpdateTabs; UpdateUI; PollEvents]
            ++ [NewTicker (tickerDuration (flag_period fl))] ++ calls).
    split; [by rewrite <- !app_assoc|]. split; [|lia].
    repeat (apply Forall_cons; split; [done|]). done.
  - exists (([SetupUI pid; UpdateTabs; UpdateTabs; UpdateUI; PollEvents]
             ++ [NewTicker (tickerDuration (flag_period fl))] ++ calls)
            ++ deferred profiling).
    split; [by rewrite <- !app_assoc|]. split.
    + apply Forall_app. split; [|done].
      repeat (apply Forall_cons; split; [done|]). done.
    + split; [lia|]. split; [done|]. by eauto.
  - exists (([SetupUI pid; UpdateTabs; UpdateTabs; UpdateUI; PollEvents]
             ++ [NewTicker (tickerDuration (flag_period fl))] ++ calls)
            ++ deferred profiling).
    split; [by rewrite <- !app_assoc|]. split.
    + apply Forall_app. split; [|done].
      repeat (apply Forall_cons; split; [done|]). done.
    + split; [lia|]. by eauto.
Qed.

(** The ways through [main] up to [setupUI]: [H] is the run, and each case
    left has reached an end or [runUI]. *)
Ltac main_cases H :=
  unfold main in H;
  destruct (searchTarget _ _ _ _) as [?st|?p] eqn:?Hsearch in H;
    [destruct (ended _) as [|?code] eqn:?Hended in H;
       [destruct (decide (flag_cpu_profile _ ≠ "")) as [?Hcpu|?Hcpu] in H;
          [destruct (world_create _ _) as [?err|] eqn:?Hcreate in H|];
          [|unfold runSession in H;
            destruct (decide (flag_record _ ≠ "")) as [?Hrec|?Hrec] in H;
              [destruct (world_record_new _) as [?err|] eqn:?Hnew in H
              |destruct (decide (flag_replay _ ≠ "")) as [?Hrep|?Hrep] in H;
                 [destruct (world_record_load _ _) as [?err|] eqn:?Hload in H|]]
            ..]
       |]
    |].






(** X19.  [main] returns only when the loop received a quit key, [q] or
    [<C-c>], after a ticker of positive duration was started; the last
    calls it makes are the deferred ones, [closeUI] and then, when
    [-cpu-profile] was given, the stop of the profile. *)
Theorem main_returns_by_quit (fl : Flags) (w : World) (paused paused' : bool)
    (inputs : list input) (trace : list action) :
  main fl w paused inputs = (Returned, paused', trace) →
  (∃ e, UI e ∈ inputs ∧ (ID e = "q" ∨ ID e = "<C-c>"))
  ∧ 0 < tickerDuration (flag_period fl)
  ∧ ∃ t, trace = t ++ deferred (bool_decide (flag_cpu_profile fl ≠ "")).
Proof.
  intros Hmain.
  main_cases Hmain;
    try (apply runUI_inv in Hmain
           as (calls & -> & _ & Hd & Hq & t & ->));
    try done;
    (split; [done|]); (split; [done|]);
    rewrite ?bool_decide_true, ?bool_decide_false by done;
    rewrite app_assoc; eexists; reflexivity.
Qed.

Lemma runUI_no_loop (fl : Flags) (w : World) (pid : Z) (profiling paused : bool)
    (inputs : list input) (trace : list action) :
  tickerDuration (flag_period fl) ≤ 0 →
  runUI fl w pid profiling paused inputs trace
  = runUI fl w pid profiling paused [] trace.
Proof.
  intros Hd. unfold runUI. destruct (world_setup_ui w pid); [done|].
  by destruct (decide (tickerDuration (flag_period fl) ≤ 0)).
Qed.

(** X20.  With a period that is zero or negative the loop is never
    entered, whatever the inputs are: when the start goes through, [main]
    panics in the creation of the ticker, after the tabs were updated twice
    and the interface drawn once, and the deferred calls are made. *)
Theorem main_ticker_panic (fl : Flags) (w : World) (paused : bool)
    (inputs : list input) :
  -9223372036854 ≤ flag_period fl ≤ 0 →
  main fl w paused inputs = main fl w paused []
  ∧ ∀ end_ paused' trace,
      main fl w paused inputs = (end_, paused', trace) →
      (∃ code, end_ = Exited code)
      ∨ (∃ p, end_ = Crashed (CrashPanic p))
      ∨ (end_ = Crashed (CrashTicker (1000000 * flag_period fl))
         ∧ paused' = paused
         ∧ ∃ t pid,
             trace = t ++ [SetupUI pid; UpdateTabs; UpdateTabs; UpdateUI;
                           PollEvents]
                       ++ deferred (bool_decide (flag_cpu_profile fl ≠ ""))).
Proof.
  intros Hperiod.
  assert (tickerDuration (flag_period fl) = 1000000 * flag_period fl) as Hexact
    by (apply tickerDuration_exact; lia).
  assert (tickerDuration (flag_period fl) ≤ 0) as Hd by lia.
  split.
  - unfold main, runSession.
    repeat case_match; try done; by apply runUI_no_loop.
  - intros end_ paused' trace Hmain.
    main_cases Hmain;
      try (apply runUI_inv in Hmain as (calls & -> & _ & Hend));
      try (injection Hmain as <- <- <-);
      try (by left; eauto); try (by right; left; eauto);
      (destruct end_ as [| |[p|d|e]|];
         [destruct Hend; lia
         |left; by eauto
         |done
         |destruct Hend as (-> & _ & -> & ->)
         |destruct Hend; lia
         |lia]);
      right; right; rewrite Hexact; (split; [done|]); (split; [done|]);
      rewrite ?bool_decide_true, ?bool_decide_false by done;
      do 2 eexists; reflexivity.
Qed.



Lemma main_returns_by_quit_witness :
  main sampleFlags sampleWorld false [Tick; keyEvent "q"; Tick]
  = (Returned, false,
     [SetupUI 4; UpdateTabs; UpdateTabs; UpdateUI; PollEvents;
      NewTicker 500000000; UpdateTabs; UpdateUI; CloseUI])
  ∧ (∃ e, UI e ∈ [Tick; keyEvent "q"; Tick] ∧ (ID e = "q" ∨ ID e = "<C-c>"))
  ∧ 0 < tickerDuration 500
  ∧ ∃ t, [SetupUI 4; UpdateTabs; UpdateTabs; UpdateUI; PollEvents;
          NewTicker 500000000; UpdateTabs; UpdateUI; CloseUI]
         = t ++ deferred false.
Proof.
  split; [reflexivity|].
  exact (main_returns_by_quit sampleFlags sampleWorld false false
           [Tick; keyEvent "q"; Tick] _ eq_refl).
Defined.

Lemma main_ticker_panic_witness :
  let fl := {| flag_pid := 7; flag_search := ""; flag_period := 0;
               flag_record := ""; flag_replay := ""; flag_cpu_profile := "" |} in
  main fl sampleWorld false [Tick; keyEvent "q"]
  = (Crashed (CrashTicker 0), false,
     [SetupUI 7; UpdateTabs; UpdateTabs; UpdateUI; PollEvents; CloseUI]).
Proof.
  intros fl.
  destruct (main_ticker_panic fl sampleWorld false [Tick; keyEvent "q"])
    as [Hsame _]; [simpl; lia|].
  rewrite Hsame. reflexivity.
Defined.

(** * Instances of the further properties *)

Lemma parseNetlink_outcome_witness :
  @parseNetlink SpecHelpers.env "/proc/net/netlink" netlinkLine "netlink"
  = Returns
      ({| Proto := "netlink"; Type_ := 0; TypeString := "";
          Groups := "00000110"; Path := ""; State := 0; StateString := "";
          SrcIP := []; SrcPort := 0; DstIP := []; DstPort := 0;
          UserId := 0; INode := 27854 |}, None).
Proof.
  apply (@parseNetlink_outcome SpecHelpers.env "/proc/net/netlink" netlinkLine
           "netlink" "00000110" "27854");
    [vm_compute; lia | reflexivity | reflexivity].
Defined.

Lemma decoded_record_shape_witness :
  ∃ e, @parseLine SpecHelpers.env "/proc/net/unix" unixLine "unix"
       = Returns (e, None)
       ∧ Proto e = "unix" ∧ SrcIP e = [] ∧ UserId e = 0.
Proof.
  eexists. split; [reflexivity|].
  destruct (@decoded_record_shape SpecHelpers.env "/proc/net/unix" unixLine
              "unix" _ eq_refl) as (Hproto & _).
  split; [exact Hproto|]. split; reflexivity.
Defined.

Lemma decode_from_fields_witness :
  @parseLine SpecHelpers.env "/proc/net/netlink" netlinkLine "netlink"
  = @parseLine SpecHelpers.env "other"
      "0000000000000000 0 2014 00000110 0 0 0 2 0 27854" "netlink".
Proof.
  destruct (@decode_from_fields SpecHelpers.env "/proc/net/netlink" "other"
              netlinkLine "0000000000000000 0 2014 00000110 0 0 0 2 0 27854"
              "netlink") as [Hsame _];
    [vm_compute; reflexivity | vm_compute; lia | exact Hsame].
Defined.


Lemma index_keys_witness :
  ∃ (m : NetworkINodes) (e : NetworkEntry),
    @parseNetworkInodes SpecHelpers.env sampleFS = Returns (Some m, None)
    ∧ m !! 21074 = Some e
    ∧ INode e = 21074 ∧ Proto e ∈ protocols.
Proof.
  do 2 eexists. split; [reflexivity|]. split; [reflexivity|].
  apply (@index_keys SpecHelpers.env sampleFS _ None 21074 _ eq_refl).
  reflexivity.
Defined.

Lemma index_size_records_witness :
  ∃ m : NetworkINodes,
    @parseNetworkInodes SpecHelpers.env sampleFS = Returns (Some m, None)
    ∧ (size m ≤ 4)%nat.
Proof.
  edestruct (@index_size_records SpecHelpers.env sampleFS)
    as (m & Hm & _ & Hle & _).
  - repeat (apply Forall2_cons; split; [reflexivity|]). apply Forall2_nil_2.
  - exists m. split; [exact Hm|exact Hle].
Defined.

Lemma index_map_or_error_witness :
  ∃ p, p ∈ protocols
       ∧ noUdpFS (@ProcFS SpecHelpers.env +:+ "/net/" +:+ p)
         = OpenError (PathError "open" "/proc/net/udp" "no such file or directory").
Proof.
  destruct (@index_map_or_error SpecHelpers.env noUdpFS None _ eq_refl)
    as [_ Herr].
  exact (Herr _ eq_refl).
Defined.

Lemma unix_line_rendering_witness :
  ∃ e, @parseUnix SpecHelpers.env "/proc/net/unix" unixLine "unix"
       = Returns (e, None)
       ∧ NetworkEntry_String (λ _, "") e
         = "(unix) SOCK_STREAM path='/run/user/1000/gnupg/S.dirmngr'".
Proof.
  eexists. split; [reflexivity|].
  destruct (@unix_line_rendering SpecHelpers.env (λ _, "") "/proc/net/unix"
              unixLine _ eq_refl) as [_ Hpath].
  exact (Hpath _ eq_refl).
Defined.

Lemma decoded_InfoString_witness :
  ∃ e, @parseLine SpecHelpers.env "/proc/net/tcp" tcpLine "tcp"
       = Returns (e, None)
       ∧ InfoString (λ _, None) e = "LISTENING".
Proof.
  eexists. split; [reflexivity|].
  destruct (@decoded_InfoString SpecHelpers.env (λ _, None) "/proc/net/tcp"
              tcpLine "tcp" _ eq_refl) as [Hip _].
  rewrite Hip by done. reflexivity.
Defined.

Lemma searchTarget_selects_match_witness :
  ∃ proc, proc ∈ sampleProcs ∧ PID proc = 4 ∧ Comm proc ≠ ""
          ∧ strings.Index (Comm proc) "ssh" ≠ -1.
Proof.
  destruct (searchTarget_selects_match "ssh" sampleProcs 99 0 _
              ltac:(done) eq_refl eq_refl) as (_ & Hproc & _).
  exact Hproc.
Defined.

Lemma searchTarget_target_positive_witness :
  ∃ st, searchTarget "" (inr sampleProcs) 4242 (-1) = Returns st
        ∧ 0 < TargetPID st.
Proof.
  eexists. split; [reflexivity|].
  apply (searchTarget_target_positive "" (inr sampleProcs) 4242 (-1) _);
    [lia | | reflexivity | reflexivity].
  intros procs [= <-]. repeat constructor.
Defined.
